(** * chrono-lab: the load generator [src/app/loadgen.py]

    A shallow embedding of [do_request] and of the scheduling loop, the
    statistics fold and the report of [main], followed by the properties
    of the specification that concern them.

    - Python [float] is IEEE 754 binary64, through the executable
      operations of [SpecFloat] at precision 53.
    - [Counter] objects are finite maps ([gmap]) from keys to [nat].
    - The try/except blocks live in a small state-and-exception monad
      over the statistics: what was written before a [raise] stays written.
    - The timing of the run (which futures complete within a second, when
      the deadline passes, when the operator interrupts) is the
      environment's choice: [main] is a transition function driven by
      events, and a run is a list of events. *)

From Stdlib Require Import ZArith Ascii SpecFloat Sorted.
From stdpp Require Import gmap strings list fin_maps pretty sorting.

(** ** Python floats *)

Module PyFloat.

Definition prec : Z := 53.
Definition emax : Z := 1024.

Definition float : Type := spec_float.

(** [float(n)] for an [int] (no [OverflowError] below [2^1024]). *)
Definition of_int (n : Z) : float := binary_normalize prec emax n 0 false.

Definition mul : float → float → float := SFmul prec emax.
Definition div : float → float → float := SFdiv prec emax.
Definition sub : float → float → float := SFsub prec emax.
Definition ltb : float → float → bool := SFltb.
Definition leb : float → float → bool := SFleb.

(** The value of the decimal literal [n/d]: the correctly rounded quotient. *)
Definition lit (n d : Z) : float := div (of_int n) (of_int d).

(** The literals [0.95], [100.0] and [0.0] of [main]. *)
Definition f0_95 : float := S754_finite false 8556839292003942 (-53).
Definition f100 : float := of_int 100.
Definition f0 : float := S754_zero false.

(** [int(x)]: truncation toward zero; [None] stands for the
    [ValueError] (NaN) and [OverflowError] (infinities) of Python. *)
Definition trunc (x : float) : option Z :=
  match x with
  | S754_zero _ => Some 0%Z
  | S754_finite s m e => Some (cond_Zopp s (Z.shiftl (Z.pos m) e))
  | S754_infinity _ | S754_nan => None
  end.

Definition is_nan (x : float) : bool :=
  match x with S754_nan => true | _ => false end.

End PyFloat.

Abbreviation float := PyFloat.float.

(** ** Python exceptions and the statistics monad *)

(** [Exception cls msg] is an instance of a subclass [cls] of [Exception]
    whose [str(e)] is [msg]; [KeyboardInterrupt] derives from
    [BaseException] only, so [except Exception] lets it through. *)
Inductive exn : Type :=
  | Exception (cls msg : string)
  | KeyboardInterrupt.

Definition exn_str (e : exn) : string :=
  match e with
  | Exception _ msg => msg
  | KeyboardInterrupt => ""
  end.

(** [c[k] += 1] on a [Counter]: a missing key reads as 0. *)
Definition counter_incr `{Countable K} (k : K) (c : gmap K nat) : gmap K nat :=
  <[k := S (default 0 (c !! k))]> c.

(** [c[k]] on a [Counter]. *)
Definition counter_get `{Countable K} (c : gmap K nat) (k : K) : nat :=
  default 0 (c !! k).

(** The sum of all counts of a [Counter]. *)
Definition counter_total `{Countable K} (c : gmap K nat) : nat :=
  map_fold (λ _ v acc, v + acc) 0 c.

(** A status code as the fold sees it: an [int], or [None]. *)
Abbreviation pycode := (option Z).

(** The local variables of [main] that make up the statistics. *)
Record Stats : Type := mkStats {
  attempts : nat;
  successes : nat;
  failures : nat;
  status_counts : gmap pycode nat;
  latencies : list float;
  error_samples : gmap string nat
}.

Definition stats0 : Stats := mkStats 0 0 0 ∅ [] ∅.

(** A computation over the statistics that returns or raises. *)
Definition M (A : Type) : Type := Stats → Stats * (exn + A).

Definition ret {A} (a : A) : M A := λ st, (st, inr a).
Definition raise {A} (e : exn) : M A := λ st, (st, inl e).
Definition bind {A B} (m : M A) (k : A → M B) : M B :=
  λ st, match m st with
        | (st', inr a) => k a st'
        | (st', inl e) => (st', inl e)
        end.
Definition modify (f : Stats → Stats) : M unit := λ st, (f st, inr tt).
Definition lift {A} (r : exn + A) : M A := λ st, (st, r).

(** [try: m] followed by [except Exception as e: h e]. *)
Definition try_except {A} (m : M A) (h : exn → M A) : M A :=
  λ st, match m st with
        | (st', inl (Exception cls msg)) => h (Exception cls msg) st'
        | r => r
        end.

Notation "'let*' x ':=' m 'in' k" := (bind m (λ x, k))
  (at level 10, x pattern, m at level 100, k at level 200, only parsing).
Notation "m ;;; k" := (bind m (λ _, k))
  (at level 100, right associativity, only parsing).

(** ** Strings: [s.split(":")[0][:60]] *)

Definition colon : ascii := ":"%char.

(** [s.split(":")[0]]: the text before the first colon. *)
Fixpoint split_colon_head (s : string) : string :=
  match s with
  | EmptyString => EmptyString
  | String c s' => if Ascii.eqb c colon then EmptyString
                   else String c (split_colon_head s')
  end.

(** [s[:n]]. *)
Fixpoint str_take (n : nat) (s : string) : string :=
  match n, s with
  | S n', String c s' => String c (str_take n' s')
  | _, _ => EmptyString
  end.

Definition error_key (s : string) : string := str_take 60 (split_colon_head s).

(** [s.endswith((".", "?", "!"))]. *)
Fixpoint ends_with_terminal (s : string) : bool :=
  match s with
  | EmptyString => false
  | String c EmptyString =>
      Ascii.eqb c "."%char || Ascii.eqb c "?"%char || Ascii.eqb c "!"%char
  | String _ s' => ends_with_terminal s'
  end.

(** Truthiness of an optional string: [if err:]. *)
Definition truthy (o : option string) : bool :=
  match o with
  | Some (String _ _) => true
  | _ => false
  end.

(** ** The request executor: [do_request] *)

(** What the fold looks at in a [requests.Response]: its status code and
    whether [resp.json()] decodes ([inr]) or raises a [JSONDecodeError]
    whose text is given ([inl]). *)
Record Response : Type := mkResponse {
  status_code : Z;
  json : string + unit
}.

(** What [session.request] does in a worker: it returns a response, or it
    raises an instance of a subclass [cls] of [Exception] whose [str(e)]
    is [msg] (a [KeyboardInterrupt] reaches the main thread only). *)
Inductive HttpResult : Type :=
  | Responded (r : Response)
  | Raised (cls msg : string).

(** The 5-tuple [(ok, code, lat, err, resp)] that [do_request] returns. *)
Record Outcome : Type := mkOutcome {
  ok : bool;
  code : pycode;
  lat : option float;
  err : option string;
  resp : option Response
}.

(** [t0] and [t1] are the two readings of [time.time()]. *)
Definition do_request (call : HttpResult) (t0 t1 : float) : Outcome :=
  match call with
  | Responded r =>
      let latency := PyFloat.sub t1 t0 in
      mkOutcome true (Some (status_code r)) (Some latency) None (Some r)
  | Raised cls msg =>
      let latency := PyFloat.sub t1 t0 in
      mkOutcome false None (Some latency) (Some msg) None
  end.

(** ** Configuration and the request builder: [submit_one] *)

Inductive Mode : Type := get | chat.

#[global] Instance Mode_eq_dec : EqDecision Mode.
Proof. solve_decision. Defined.

(** The fields of [args] that the loop reads, and the loaded [prompts]. *)
Record Config : Type := mkConfig {
  mode : Mode;
  url : string;
  max_rps : Z;
  concurrency : Z;
  model : option string;
  min_words : Z;
  max_words : Z;
  prompts : list string
}.

(** [random.randint(a, b)]: the equiprobable outcomes, each listed once,
    or the [ValueError] of an empty range. *)
Definition randint (a b : Z) : exn + list Z :=
  if (b <? a)%Z then inl (Exception "ValueError" "empty range for randrange()")
  else inr (map (λ i, (a + Z.of_nat i)%Z) (seq 0 (Z.to_nat (b - a + 1)))).

(** [random.choice(l)]: the equiprobable outcomes, or [IndexError]. *)
Definition choice {A} (l : list A) : exn + list A :=
  match l with
  | [] => inl (Exception "IndexError" "Cannot choose from an empty sequence")
  | _ => inr l
  end.

(** One draw among equiprobable outcomes, resolved by a number [r] that
    the random source supplies. *)
Definition draw {A} (outcomes : exn + list A) (r : nat) : exn + A :=
  match outcomes with
  | inl e => inl e
  | inr l => match l !! (r `mod` length l) with
             | Some a => inr a
             | None => inl (Exception "IndexError" "list index out of range")
             end
  end.

(** The outcomes of [want] in the chat branch of [submit_one]. *)
Definition want_outcomes (args : Config) : exn + list Z :=
  randint (min_words args) (Z.max (min_words args) (max_words args)).

Record Request : Type := mkRequest {
  method : string;
  req_url : string;
  headers : option (list (string * string));
  json_body : option (list (string * string))
}.

(** The request that [submit_one] hands to the pool; [r1] and [r2] resolve
    [random.choice(prompts)] and [random.randint(...)]. *)
Definition build_request (args : Config) (r1 r2 : nat) : exn + Request :=
  match mode args with
  | get => inr (mkRequest "GET" (url args) None None)
  | chat =>
      match draw (choice (prompts args)) r1 with
      | inl e => inl e
      | inr base =>
          match draw (want_outcomes args) r2 with
          | inl e => inl e
          | inr want =>
              let hint := " Answer in about " +:+ pretty want +:+ " words." in
              let prompt :=
                (if ends_with_terminal base then base else base +:+ ".")
                +:+ hint in
              let body := [("prompt", prompt)] ++
                          match model args with
                          | Some (String c m) => [("model", String c m)]
                          | _ => []
                          end in
              inr (mkRequest "POST" (url args)
                     (Some [("content-type", "application/json")]) (Some body))
          end
      end
  end.

(** A future of the pool: its identity and what [f.result()] gives once
    the worker has run [do_request]. *)
Record Future : Type := mkFuture {
  fid : nat;
  request : Request;
  result : exn + Outcome
}.

(** [submit_one()]: count the attempt, build the request, submit it. The
    future is the [attempts]-th one submitted. *)
Definition submit_one (args : Config) (r1 r2 : nat)
    (call : HttpResult) (t0 t1 : float) : M Future :=
  modify (λ st, mkStats (S (attempts st)) (successes st) (failures st)
                  (status_counts st) (latencies st) (error_samples st)) ;;;
  let* req := lift (build_request args r1 r2) in
  λ st, (st, inr (mkFuture (attempts st) req (inr (do_request call t0 t1)))).

(** ** The statistics fold *)

Definition incr_successes : M unit :=
  modify (λ st, mkStats (attempts st) (S (successes st)) (failures st)
                  (status_counts st) (latencies st) (error_samples st)).

Definition incr_failures : M unit :=
  modify (λ st, mkStats (attempts st) (successes st) (S (failures st))
                  (status_counts st) (latencies st) (error_samples st)).

Definition incr_status (c : pycode) : M unit :=
  modify (λ st, mkStats (attempts st) (successes st) (failures st)
                  (counter_incr c (status_counts st)) (latencies st)
                  (error_samples st)).

Definition append_latency (l : float) : M unit :=
  modify (λ st, mkStats (attempts st) (successes st) (failures st)
                  (status_counts st) (latencies st ++ [l]) (error_samples st)).

Definition incr_error (key : string) : M unit :=
  modify (λ st, mkStats (attempts st) (successes st) (failures st)
                  (status_counts st) (latencies st)
                  (counter_incr key (error_samples st))).

(** [resp.json()]; on the [None] of a failed outcome Python raises
    [AttributeError]. *)
Definition resp_json (r : option Response) : M unit :=
  match r with
  | Some r => match json r with
              | inr _ => ret tt
              | inl msg => raise (Exception "JSONDecodeError" msg)
              end
  | None => raise (Exception "AttributeError"
                     "'NoneType' object has no attribute 'json'")
  end.

(** The handler of both folds: [except Exception as e]. *)
Definition fold_handler (e : exn) : M unit :=
  incr_failures ;;; incr_error (error_key (exn_str e)).

(** The body of [for f in done] in the per-second harvest. *)
Definition harvest_fold (args : Config) (f : Future) : M unit :=
  try_except
    (let* o := lift (result f) in
     if ok o then
       incr_successes ;;;
       incr_status (code o) ;;;
       match lat o with
       | Some l => append_latency l
       | None => ret tt
       end ;;;
       if bool_decide (mode args = chat ∧ code o = Some 200%Z)
       then resp_json (resp o)
       else ret tt
     else
       incr_failures ;;;
       if truthy (err o)
       then incr_error (error_key (default "" (err o)))
       else ret tt)
    fold_handler.

(** The body of [for f in as_completed(inflight)] in the final drain. *)
Definition drain_fold (f : Future) : M unit :=
  try_except
    (let* o := lift (result f) in
     if ok o then
       incr_successes ;;;
       incr_status (code o) ;;;
       match lat o with
       | Some l => append_latency l
       | None => ret tt
       end
     else
       incr_failures ;;;
       if truthy (err o)
       then incr_error (error_key (default "" (err o)))
       else ret tt)
    fold_handler.

(** ** The folds, one assignment at a time *)

(** The operator's [KeyboardInterrupt] is raised in the main thread
    between two bytecodes, so it can fall between any two assignments of a
    fold; [except Exception] does not catch it. What is then visible in
    the report is the statistics after the assignments made so far. *)

(** The assignments of the handler of both folds. *)
Definition handler_statements (e : exn) : list (M unit) :=
  [incr_failures; incr_error (error_key (exn_str e))].

(** The assignments that the fold of a future makes to the statistics, in
    order, given what [f.result()] gives; [json_checked] tells whether the
    fold is the harvest of a chat run. *)
Definition fold_statements (json_checked : bool) (res : exn + Outcome)
    : list (M unit) :=
  match res with
  | inl KeyboardInterrupt => []
  | inl e => handler_statements e
  | inr o =>
      if ok o then
        [incr_successes; incr_status (code o)] ++
        match lat o with
        | Some l => [append_latency l]
        | None => []
        end ++
        (if json_checked && bool_decide (code o = Some 200%Z) then
           match resp o with
           | Some r =>
               match json r with
               | inr _ => []
               | inl msg => handler_statements (Exception "JSONDecodeError" msg)
               end
           | None =>
               handler_statements
                 (Exception "AttributeError"
                    "'NoneType' object has no attribute 'json'")
           end
         else [])
      else
        incr_failures ::
        (if truthy (err o)
         then [incr_error (error_key (default "" (err o)))]
         else [])
  end.

(** The statistics after the assignments of [l], one after the other. *)
Definition run_statements (l : list (M unit)) (st : Stats) : Stats :=
  foldl (λ st m, (m st).1) st l.

(** ** The scheduling loop of [main] *)

(** [Done interrupted] is the point after the try block, where the report
    is computed; [Crashed e] is an exception that leaves [main]. *)
Inductive Phase : Type :=
  | Running
  | Draining
  | Done (interrupted : bool)
  | Crashed (e : exn).

(** [inflight] is the variable of that name while the loop runs. [todo]
    holds the futures the current [for] loop has still to visit: those of
    [done] during a harvest, those of [as_completed(inflight)] during the
    drain. Once the drain has begun [inflight] is never read again: the
    model hands its futures over to [todo] and leaves it empty. *)
Record State : Type := mkState {
  phase : Phase;
  stats : Stats;
  inflight : list Future;
  todo : list Future
}.

Definition init : State := mkState Running stats0 [] [].

(** What the environment decides. *)
Inductive Event : Type :=
  | Submit (r1 r2 : nat) (call : HttpResult) (t0 t1 : float)
      (* one [fut = submit_one(); inflight.add(fut)] *)
  | Wait (ids : list nat)
      (* [done, inflight = wait(...)], the futures in [ids] being complete *)
  | Fold (i : nat)
      (* the [for] loop visits the [i]-th future it has still to visit *)
  | Deadline
      (* [time.time() < end_time] fails: the drain begins *)
  | Finish
      (* the drain loop ends *)
  | Interrupt
      (* the operator's [KeyboardInterrupt] reaches the main thread between
         two submissions or two folds, or while it waits or sleeps *)
  | InterruptSubmit
      (* it reaches the main thread inside [submit_one], after
         [attempts += 1] and before [inflight.add(fut)] *)
  | InterruptFold (i k : nat).
      (* it reaches the main thread inside the fold of the [i]-th future
         still to visit, after [k] of the assignments of that fold *)

(** Where an exception that leaves the [with] block takes [main]:
    [except KeyboardInterrupt] goes on to the report, anything else
    leaves [main]. *)
Definition handle (e : exn) : Phase :=
  match e with
  | KeyboardInterrupt => Done true
  | Exception _ _ => Crashed e
  end.

(** The statistics after [attempts += 1]. *)
Definition count_attempt (st : Stats) : Stats :=
  mkStats (S (attempts st)) (successes st) (failures st)
    (status_counts st) (latencies st) (error_samples st).

Definition after_fold (ph : Phase) (s : State) (i : nat)
    (r : Stats * (exn + unit)) : State :=
  match r with
  | (st, inr _) => mkState ph st (inflight s) (delete i (todo s))
  | (st, inl e) => mkState (handle e) st (inflight s) (delete i (todo s))
  end.

(** One transition of [main]; [None] when the event cannot happen in [s]. *)
Definition step (args : Config) (ev : Event) (s : State) : option State :=
  match phase s, ev with
  | Running, Submit r1 r2 call t0 t1 =>
      match todo s with
      | [] =>
          match submit_one args r1 r2 call t0 t1 (stats s) with
          | (st, inr fut) => Some (mkState Running st (inflight s ++ [fut]) [])
          | (st, inl e) => Some (mkState (handle e) st (inflight s) [])
          end
      | _ => None
      end
  | Running, Wait ids =>
      match todo s with
      | [] => Some (mkState Running (stats s)
                      (filter (λ f, fid f ∉ ids) (inflight s))
                      (filter (λ f, fid f ∈ ids) (inflight s)))
      | _ => None
      end
  | Running, Fold i =>
      match todo s !! i with
      | Some f => Some (after_fold Running s i (harvest_fold args f (stats s)))
      | None => None
      end
  | Running, Deadline =>
      match todo s with
      | [] => Some (mkState Draining (stats s) [] (inflight s))
      | _ => None
      end
  | Draining, Fold i =>
      match todo s !! i with
      | Some f => Some (after_fold Draining s i (drain_fold f (stats s)))
      | None => None
      end
  | Draining, Finish =>
      match todo s with
      | [] => Some (mkState (Done false) (stats s) (inflight s) [])
      | _ => None
      end
  | (Running | Draining), Interrupt =>
      Some (mkState (Done true) (stats s) (inflight s) (todo s))
  | Running, InterruptSubmit =>
      match todo s with
      | [] => Some (mkState (Done true) (count_attempt (stats s))
                      (inflight s) [])
      | _ => None
      end
  | Running, InterruptFold i k =>
      match todo s !! i with
      | Some f =>
          Some (mkState (Done true)
                  (run_statements
                     (take k (fold_statements (bool_decide (mode args = chat))
                                (result f)))
                     (stats s))
                  (inflight s) (delete i (todo s)))
      | None => None
      end
  | Draining, InterruptFold i k =>
      match todo s !! i with
      | Some f =>
          Some (mkState (Done true)
                  (run_statements (take k (fold_statements false (result f)))
                     (stats s))
                  (inflight s) (delete i (todo s)))
      | None => None
      end
  | _, _ => None
  end.

(** A run: the events from left to right. *)
Fixpoint exec (args : Config) (evs : list Event) (s : State) : option State :=
  match evs with
  | [] => Some s
  | ev :: evs' =>
      match step args ev s with
      | Some s' => exec args evs' s'
      | None => None
      end
  end.

(** The submitted requests whose outcome no fold has visited yet. *)
Definition pending (s : State) : list Future := inflight s ++ todo s.

(** [with ThreadPoolExecutor(max_workers=args.concurrency) as pool]: the
    constructor raises [ValueError] unless the number of workers is
    positive, and it is called inside the try block, whose only handler is
    for [KeyboardInterrupt]: the exception leaves [main]. Otherwise the
    loop starts in [init]. *)
Definition start (args : Config) : State :=
  if (concurrency args <=? 0)%Z
  then mkState (Crashed (Exception "ValueError"
                           "max_workers must be greater than 0"))
         stats0 [] []
  else init.

(** ** The report *)

(** [a / b] on two [int]s: the quotient of the two numbers as floats,
    which is Python's correctly rounded quotient as long as both are
    below [2^53] in absolute value. *)
Definition truediv (a b : Z) : exn + float :=
  if (b =? 0)%Z then inl (Exception "ZeroDivisionError" "division by zero")
  else inr (PyFloat.div (PyFloat.of_int a) (PyFloat.of_int b)).

(** [(successes / total * 100.0) if total > 0 else 0.0]. *)
Definition success_rate (successes total : nat) : exn + float :=
  if (0 <? Z.of_nat total)%Z then
    match truediv (Z.of_nat successes) (Z.of_nat total) with
    | inl e => inl e
    | inr q => inr (PyFloat.mul q PyFloat.f100)
    end
  else inr PyFloat.f0.

(** [sorted(l)] on floats: a stable sort by [<]. *)
Fixpoint insert_sorted (x : float) (l : list float) : list float :=
  match l with
  | [] => [x]
  | y :: l' => if PyFloat.ltb y x then y :: insert_sorted x l' else x :: l
  end.

Fixpoint sorted (l : list float) : list float :=
  match l with
  | [] => []
  | x :: l' => insert_sorted x (sorted l')
  end.

(** [int(0.95 * (n - 1))]. *)
Definition p95_index (n : nat) : exn + Z :=
  match PyFloat.trunc
          (PyFloat.mul PyFloat.f0_95 (PyFloat.of_int (Z.of_nat n - 1))) with
  | Some idx => inr idx
  | None => inl (Exception "ValueError" "cannot convert float to integer")
  end.

(** [l[i]]: a negative index counts from the end. *)
Definition list_index {A} (l : list A) (i : Z) : exn + A :=
  let j := if (i <? 0)%Z then (Z.of_nat (length l) + i)%Z else i in
  match (if (j <? 0)%Z then None else l !! Z.to_nat j) with
  | Some a => inr a
  | None => inl (Exception "IndexError" "list index out of range")
  end.

(** [p95_lat]: [None] when there is no latency. *)
Definition p95_lat (latencies : list float) : exn + option float :=
  match latencies with
  | [] => inr None
  | _ =>
      let lat_sorted := sorted latencies in
      match p95_index (length lat_sorted) with
      | inl e => inl e
      | inr idx =>
          match list_index lat_sorted idx with
          | inl e => inl e
          | inr x => inr (Some x)
          end
      end
  end.

(** What the report prints, before formatting. The mean latency and the
    ordering of the two histograms are left out. *)
Record Report : Type := mkReport {
  rep_total : nat;
  rep_successes : nat;
  rep_failures : nat;
  rep_success_rate : float;
  rep_status_counts : gmap pycode nat;
  rep_p95_lat : option float;
  rep_error_samples : gmap string nat
}.

Definition report_of (st : Stats) : exn + Report :=
  let total := attempts st in
  match success_rate (successes st) total with
  | inl e => inl e
  | inr rate =>
      match p95_lat (latencies st) with
      | inl e => inl e
      | inr p95 =>
          inr (mkReport total (successes st) (failures st) rate
                 (status_counts st) p95 (error_samples st))
      end
  end.

(** The report of a run: there is one once the try block is left through
    its end or through [except KeyboardInterrupt]. *)
Definition report (s : State) : option (exn + Report) :=
  match phase s with
  | Done _ => Some (report_of (stats s))
  | _ => None
  end.

(** ** What one fold does to the statistics, and what a run is made of *)

(** An outcome counted as a success. *)
Definition count_success (c : pycode) (l : float) (st : Stats) : Stats :=
  mkStats (attempts st) (S (successes st)) (failures st)
    (counter_incr c (status_counts st)) (latencies st ++ [l])
    (error_samples st).

(** An outcome counted as a failure, under the error key [key] if any. *)
Definition count_failure (key : option string) (st : Stats) : Stats :=
  mkStats (attempts st) (successes st) (S (failures st))
    (status_counts st) (latencies st)
    (match key with
     | Some k => counter_incr k (error_samples st)
     | None => error_samples st
     end).

(** The statistics after the fold of the outcome of [call]; [json_checked]
    tells whether the fold is the harvest of a chat run. *)
Definition folded (json_checked : bool) (call : HttpResult) (t0 t1 : float)
    (st : Stats) : Stats :=
  match call with
  | Responded r =>
      let st1 := count_success (Some (status_code r)) (PyFloat.sub t1 t0) st in
      match json_checked && bool_decide (status_code r = 200%Z), json r with
      | true, inl msg => count_failure (Some (error_key msg)) st1
      | _, _ => st1
      end
  | Raised cls msg =>
      count_failure
        (if truthy (Some msg) then Some (error_key msg) else None) st
  end.

(** The future was submitted by [submit_one] for a call that satisfies [P]. *)
Definition made_by (P : HttpResult → Prop) (f : Future) : Prop :=
  ∃ call t0 t1, P call ∧ result f = inr (do_request call t0 t1).

(** Every call of the run satisfies [P]. *)
Definition calls_satisfy (P : HttpResult → Prop) (evs : list Event) : Prop :=
  Forall (λ ev, match ev with
                | Submit _ _ call _ _ => P call
                | _ => True
                end) evs.

(** The response, if any, passes the JSON check of the harvest. *)
Definition decodable (call : HttpResult) : Prop :=
  match call with
  | Responded r => status_code r = 200%Z → json r = inr tt
  | Raised _ _ => True
  end.

(** The target answers with status [c]. *)
Definition answers (c : Z) (call : HttpResult) : Prop :=
  match call with
  | Responded r => status_code r = c
  | Raised _ _ => False
  end.

Definition crashed (s : State) : Prop := ∃ e, phase s = Crashed e.

(** ** Sample configurations, calls and runs *)

Definition args_get : Config :=
  mkConfig get "http://localhost:8000/api" 10 4 None 10 60 [].

Definition args_chat : Config :=
  mkConfig chat "http://localhost:8000/chat" 10 4 None 10 60
    ["Explain OpenTelemetry in one sentence."].

(** [--min-words 10 --max-words 5]. *)
Definition args_inverted : Config :=
  mkConfig chat "http://localhost:8000/chat" 10 4 None 10 5
    ["Explain OpenTelemetry in one sentence."].

(** A reading of the clock, or a duration, of [ms] milliseconds. *)
Definition millis (ms : Z) : float := PyFloat.lit ms 1000.

Definition ok200 : HttpResult := Responded (mkResponse 200 (inr tt)).
Definition err500 : HttpResult := Responded (mkResponse 500 (inr tt)).
Definition bad_json : HttpResult :=
  Responded (mkResponse 200 (inl "Expecting value: line 1 column 1 (char 0)")).
Definition refused : HttpResult :=
  Raised "ConnectionError" "Connection refused: localhost:8000".
Definition silent : HttpResult := Raised "Exception" "".

(** Two requests in the first second, one harvested, the other drained. *)
Definition run_two (call : HttpResult) : list Event :=
  [Submit 0 0 call (millis 0) (millis 10);
   Submit 0 0 call (millis 0) (millis 20);
   Wait [1]; Fold 0; Deadline; Fold 0; Finish].

(** One request submitted, then the operator interrupts. *)
Definition run_interrupted : list Event :=
  [Submit 0 0 ok200 (millis 0) (millis 10); Interrupt].

(** One request submitted and complete; the operator interrupts inside
    its fold, after [k] assignments. *)
Definition run_cut (k : nat) : list Event :=
  [Submit 0 0 ok200 (millis 0) (millis 10); Wait [1]; InterruptFold 0 k].

(** One request, folded by the drain after the deadline. *)
Definition run_drained (call : HttpResult) : list Event :=
  [Submit 0 0 call (millis 0) (millis 10); Deadline; Fold 0; Finish].

(** [--concurrency 0]. *)
Definition args_no_workers : Config :=
  mkConfig get "http://localhost:8000/api" 10 0 None 10 60 [].

(** The drain loop is complete where it has to be. *)
Definition drained (s : State) : Prop :=
  match phase s with
  | Draining => inflight s = []
  | Done false => pending s = []
  | _ => True
  end.

(** A completed future of a chat run whose body does not decode. *)
Definition bad_future : Future :=
  mkFuture 1 (mkRequest "POST" (url args_chat) None None)
    (inr (do_request bad_json (millis 0) (millis 10))).

(** The nearest rank of the specification: [floor(0.95 * (n - 1))]. *)
Definition nearest_rank (n : nat) : nat :=
  Z.to_nat (95 * (Z.of_nat n - 1) / 100).

(** [x] is not above [y]; on floats other than NaN this is [x <= y]. *)
Definition not_above (x y : float) : Prop := PyFloat.ltb y x = false.

(** The latencies 10 ms, 20 ms, 30 ms, 40 ms and 50 ms, in seconds. *)
Definition five_latencies : list float := map millis [10; 20; 30; 40; 50]%Z.

(** A sequence of 1185157796676462 latencies, in ascending order:
    1125899906842638 of them are 0 s, the others 1 s. *)
Definition long_latencies : list float :=
  replicate (Z.to_nat 1125899906842638) PyFloat.f0 ++
  replicate (Z.to_nat 59257889833824) (PyFloat.of_int 1).

(** ** Error keys, growth of the statistics, and the transitions of a run *)

(** The characters of a string. *)
Fixpoint chars (s : string) : list ascii :=
  match s with
  | EmptyString => []
  | String c s' => c :: chars s'
  end.

(** [st'] has grown out of [st]: no counter is lower and the latencies of
    [st] open those of [st']. *)
Definition stats_le (st st' : Stats) : Prop :=
  attempts st ≤ attempts st' ∧
  successes st ≤ successes st' ∧
  failures st ≤ failures st' ∧
  latencies st `prefix_of` latencies st' ∧
  (∀ c, counter_get (status_counts st) c ≤ counter_get (status_counts st') c) ∧
  (∀ k, counter_get (error_samples st) k ≤ counter_get (error_samples st') k).

(** A key that [error_key] can produce. *)
Definition short_key (k : string) : Prop :=
  String.length k ≤ 60 ∧ colon ∉ chars k.

(** The statistics when the operator's interrupt arrives inside the fold
    of the outcome of [call], after [k] of its assignments. *)
Definition partial_fold (json_checked : bool) (call : HttpResult)
    (t0 t1 : float) (k : nat) (st : Stats) : Stats :=
  run_statements
    (take k (fold_statements json_checked (inr (do_request call t0 t1)))) st.

(** The statistics that an interrupt inside a fold can leave: those
    before the fold and those after each of its assignments. *)
Inductive cut_of (b : bool) (call : HttpResult) (t0 t1 : float)
    (st : Stats) : Stats → Prop :=
  | cut_none : cut_of b call t0 t1 st st
  | cut_successes r :
      call = Responded r →
      cut_of b call t0 t1 st
        (mkStats (attempts st) (S (successes st)) (failures st)
           (status_counts st) (latencies st) (error_samples st))
  | cut_status r :
      call = Responded r →
      cut_of b call t0 t1 st
        (mkStats (attempts st) (S (successes st)) (failures st)
           (counter_incr (Some (status_code r)) (status_counts st))
           (latencies st) (error_samples st))
  | cut_latency r :
      call = Responded r →
      cut_of b call t0 t1 st
        (count_success (Some (status_code r)) (PyFloat.sub t1 t0) st)
  | cut_json r msg :
      call = Responded r → b = true → status_code r = 200%Z →
      json r = inl msg →
      cut_of b call t0 t1 st
        (count_failure None
           (count_success (Some (status_code r)) (PyFloat.sub t1 t0) st))
  | cut_failures cls msg :
      call = Raised cls msg →
      cut_of b call t0 t1 st (count_failure None st)
  | cut_whole : cut_of b call t0 t1 st (folded b call t0 t1 st).

(** The transitions of [main] on futures that [submit_one] made, one
    constructor for each thing an event can do. *)
Inductive transition (args : Config) : Event → State → State → Prop :=
  | tr_submit r1 r2 call t0 t1 req s :
      phase s = Running → todo s = [] →
      build_request args r1 r2 = inr req →
      transition args (Submit r1 r2 call t0 t1) s
        (mkState Running (count_attempt (stats s))
           (inflight s ++ [mkFuture (S (attempts (stats s))) req
                             (inr (do_request call t0 t1))]) [])
  | tr_crash r1 r2 call t0 t1 cls msg s :
      phase s = Running → todo s = [] →
      build_request args r1 r2 = inl (Exception cls msg) →
      transition args (Submit r1 r2 call t0 t1) s
        (mkState (Crashed (Exception cls msg)) (count_attempt (stats s))
           (inflight s) [])
  | tr_wait ids s :
      phase s = Running → todo s = [] →
      transition args (Wait ids) s
        (mkState Running (stats s)
           (filter (λ f, fid f ∉ ids) (inflight s))
           (filter (λ f, fid f ∈ ids) (inflight s)))
  | tr_harvest i f call t0 t1 s :
      phase s = Running → todo s !! i = Some f →
      result f = inr (do_request call t0 t1) →
      transition args (Fold i) s
        (mkState Running
           (folded (bool_decide (mode args = chat)) call t0 t1 (stats s))
           (inflight s) (delete i (todo s)))
  | tr_deadline s :
      phase s = Running → todo s = [] →
      transition args Deadline s (mkState Draining (stats s) [] (inflight s))
  | tr_drain i f call t0 t1 s :
      phase s = Draining → todo s !! i = Some f →
      result f = inr (do_request call t0 t1) →
      transition args (Fold i) s
        (mkState Draining (folded false call t0 t1 (stats s))
           (inflight s) (delete i (todo s)))
  | tr_finish s :
      phase s = Draining → todo s = [] →
      transition args Finish s (mkState (Done false) (stats s) (inflight s) [])
  | tr_interrupt s :
      phase s = Running ∨ phase s = Draining →
      transition args Interrupt s
        (mkState (Done true) (stats s) (inflight s) (todo s))
  | tr_interrupt_submit s :
      phase s = Running → todo s = [] →
      transition args InterruptSubmit s
        (mkState (Done true) (count_attempt (stats s)) (inflight s) [])
  | tr_interrupt_harvest i k f call t0 t1 s :
      phase s = Running → todo s !! i = Some f →
      result f = inr (do_request call t0 t1) →
      transition args (InterruptFold i k) s
        (mkState (Done true)
           (partial_fold (bool_decide (mode args = chat)) call t0 t1 k
              (stats s))
           (inflight s) (delete i (todo s)))
  | tr_interrupt_drain i k f call t0 t1 s :
      phase s = Draining → todo s !! i = Some f →
      result f = inr (do_request call t0 t1) →
      transition args (InterruptFold i k) s
        (mkState (Done true) (partial_fold false call t0 t1 k (stats s))
           (inflight s) (delete i (todo s))).

(** The interrupt of [ev] falls inside a fold, inside [submit_one]. *)
Definition inside_fold (ev : Event) : bool :=
  match ev with
  | InterruptFold _ _ => true
  | _ => false
  end.

Definition inside_submit (ev : Event) : bool :=
  match ev with
  | InterruptSubmit => true
  | _ => false
  end.

(** In state [s], [ev] is a harvest fold of a chat run that calls
    [resp.json()] on a response of status 200 and sees it raise. *)
Definition json_check_fails (args : Config) (ev : Event) (s : State) : bool :=
  match phase s, ev with
  | Running, Fold i =>
      match todo s !! i with
      | Some f =>
          match result f with
          | inr o =>
              ok o && bool_decide (mode args = chat ∧ code o = Some 200%Z) &&
              match resp o with
              | Some r => match json r with inl _ => true | inr _ => false end
              | None => true
              end
          | inl _ => false
          end
      | None => false
      end
  | _, _ => false
  end.

(** The number of JSON checks that fail along the run of [evs] from [s]. *)
Fixpoint json_failures (args : Config) (evs : list Event) (s : State) : nat :=
  match evs with
  | [] => 0
  | ev :: evs' =>
      (if json_check_fails args ev s then 1 else 0) +
      match step args ev s with
      | Some s' => json_failures args evs' s'
      | None => 0
      end
  end.

(** The futures of [l] were made by [submit_one]. *)
Definition submitted (l : list Future) : Prop :=
  Forall (made_by (λ _, True)) l.

(** [--mode chat] with a prompts file that yields no prompt. *)
Definition args_no_prompts : Config :=
  mkConfig chat "http://localhost:8000/chat" 10 4 None 10 60 [].

(** The run can go on: [main] is inside its [with] block. *)
Definition live (s : State) : Prop := phase s = Running ∨ phase s = Draining.

(** The outcomes of the requests that the events of a run submit, in the
    order of submission. *)
Definition outcomes_of (evs : list Event) : list Outcome :=
  evs ≫= λ ev, match ev with
               | Submit _ _ call t0 t1 => [do_request call t0 t1]
               | _ => []
               end.

(** The outcomes that the futures of [l] hold. *)
Definition outcomes_held (l : list Future) : list Outcome :=
  omap (λ f, match result f with inr o => Some o | inl _ => None end) l.

(** Tallies of a list of outcomes, whatever its order. *)
Definition successes_in (os : list Outcome) : nat :=
  length (filter (λ o, ok o = true) os).

Definition failures_in (os : list Outcome) : nat :=
  length (filter (λ o, ok o = false) os).

Definition status_in (c : pycode) (os : list Outcome) : nat :=
  length (filter (λ o, ok o = true ∧ code o = c) os).

Definition latencies_in (os : list Outcome) : list float :=
  omap (λ o, if ok o then lat o else None) os.

(** The books balance: the statistics [st] and the outcomes [os] still
    pending account for the outcomes [total] of all submitted requests.
    [b] tells whether the run is in chat mode, where a response can also
    be counted as a failure. *)
Definition ledger (b : bool) (st : Stats) (os : list Outcome)
    (total : list Outcome) : Prop :=
  successes st + successes_in os = successes_in total ∧
  (∀ c, counter_get (status_counts st) c + status_in c os
        = status_in c total) ∧
  latencies st ++ latencies_in os ≡ₚ latencies_in total ∧
  failures_in total ≤ failures st + failures_in os ∧
  (b = false → failures st + failures_in os = failures_in total).

(** The outcomes of [rps = random.randint(1, max(1, args.max_rps))], the
    number of requests submitted in one second. *)
Definition rps_outcomes (args : Config) : exn + list Z :=
  randint 1 (Z.max 1 (max_rps args)).

(** The JSON body of a chat request: the prompt, then the model if any. *)
Definition chat_body (args : Config) (prompt : string)
    : list (string * string) :=
  ("prompt", prompt) ::
  match model args with
  | Some (String c m) => [("model", String c m)]
  | _ => []
  end.

(** The order of the tuples [(code, count)] of [status_counts.items()]:
    the keys of a dict are distinct, so two tuples compare as their codes
    do. *)
Definition item_le (a b : pycode * nat) : Prop :=
  match a.1, b.1 with
  | Some x, Some y => (x ≤ y)%Z
  | None, _ => True
  | Some _, None => False
  end.

#[global] Instance item_le_dec : RelDecision item_le.
Proof.
  intros [[x|] n] [[y|] m]; unfold item_le; simpl; apply _.
Defined.

#[global] Instance item_le_total : Total item_le.
Proof. intros [[x|] n] [[y|] m]; unfold item_le; simpl; auto; lia. Qed.

#[global] Instance item_le_trans : Transitive item_le.
Proof.
  intros [[x|] n] [[y|] m] [[z|] k]; unfold item_le; simpl; auto; try lia.
Qed.

(** [sorted(status_counts.items())], the lines of the report under
    "Status codes:"; [None] stands for the [TypeError] that Python raises
    when the sort compares the key [None] with an [int]. *)
Definition status_lines (c : gmap pycode nat) : option (list (pycode * nat)) :=
  if bool_decide (is_Some (c !! None) ∧ 1 < size c) then None
  else Some (merge_sort item_le (map_to_list c)).

(** Ascending, with no code twice and no [None]. *)
Definition item_lt (a b : pycode * nat) : Prop :=
  ∃ x y, a.1 = Some x ∧ b.1 = Some y ∧ (x < y)%Z.

(** ** The prompt corpus: [load_prompts] *)

(** The curly quotes of the last prompt stand as the bytes of their UTF-8
    encoding. *)
Definition DEFAULT_PROMPTS : list string :=
  [ "Explain OpenTelemetry in one sentence.";
    "What is the difference between tracing and logging?";
    "Summarize why a Collector fan-out is useful.";
    "How does sampling affect trace quality?";
    "Give me 3 pros and 3 cons of auto-instrumentation.";
    "What is an OTLP exporter and why do we use one?";
    "Describe a typical Grafana Tempo + Prometheus + Loki stack.";
    "How do I correlate a trace in Grafana with a Phoenix session?";
    "What are common labels/tags to add to LLM spans?";
    "Explain the term ‘span kind’ with examples." ].

(** [c.isspace()] on the characters below 256: the ASCII white space, the
    separators U+001C to U+001F, U+0085 and U+00A0. *)
Definition is_space (c : ascii) : bool :=
  let n := nat_of_ascii c in
  (9 <=? n) && (n <=? 13) || (28 <=? n) && (n <=? 31) ||
  (n =? 32) || (n =? 133) || (n =? 160).

(** The line boundaries of [str.splitlines()] below 256. *)
Definition is_linebreak (c : ascii) : bool :=
  let n := nat_of_ascii c in
  (10 <=? n) && (n <=? 13) || (28 <=? n) && (n <=? 30) || (n =? 133).

(** [str.splitlines()] on a list of characters: [cur] is the line being
    read, [after_cr] tells that the last character was a carriage return,
    which makes one boundary with a line feed that follows. A last line
    with no boundary after it is a line unless it is empty. *)
Fixpoint split_lines (after_cr : bool) (cur s : list ascii)
    : list (list ascii) :=
  match s with
  | [] => match cur with [] => [] | _ => [cur] end
  | c :: s' =>
      if after_cr && Ascii.eqb c "010"%char then split_lines false cur s'
      else if is_linebreak c
           then cur :: split_lines (Ascii.eqb c "013"%char) [] s'
           else split_lines false (cur ++ [c]) s'
  end.

Fixpoint lstrip_chars (s : list ascii) : list ascii :=
  match s with
  | c :: s' => if is_space c then lstrip_chars s' else s
  | [] => []
  end.

Definition strip_chars (s : list ascii) : list ascii :=
  reverse (lstrip_chars (reverse (lstrip_chars s))).

Definition splitlines (s : string) : list string :=
  map String.string_of_list_ascii (split_lines false [] (chars s)).

(** [s.strip()]. *)
Definition strip (s : string) : string :=
  String.string_of_list_ascii (strip_chars (chars s)).

(** What [json.loads] returns. *)
#[warnings="-register-all"] Inductive Json : Type :=
  | JNull
  | JBool (b : bool)
  | JInt (n : Z)
  | JFloat (x : float)
  | JStr (s : string)
  | JList (items : list Json)
  | JObject (members : list (string * Json)).

(** The truth value of a decoded JSON value: [if x]. *)
Definition json_truthy (x : Json) : bool :=
  match x with
  | JNull => false
  | JBool b => b
  | JInt n => negb (n =? 0)%Z
  | JFloat (S754_zero _) => false
  | JFloat _ => true
  | JStr s => negb (String.eqb s "")
  | JList items => match items with [] => false | _ => true end
  | JObject members => match members with [] => false | _ => true end
  end.

(** What [load_prompts] reads from outside: the file system under each
    path, the decoder of [json.loads], and [repr] on the values whose
    [str] is their [repr]. *)
Record Files : Type := mkFiles {
  path_exists : string → bool;
  suffix_lower : string → string;
  read_text : string → exn + string;
  json_loads : string → exn + Json;
  repr : Json → string
}.

(** [str(x)] on a decoded JSON value. *)
Definition json_str (w : Files) (x : Json) : string :=
  match x with
  | JStr s => s
  | JInt n => pretty n
  | JBool true => "True"
  | JBool false => "False"
  | JNull => "None"
  | _ => repr w x
  end.

(** [load_prompts(path)]; the warning printed for a missing file is left
    out. *)
Definition load_prompts (w : Files) (path : option string)
    : exn + list string :=
  match path with
  | None | Some EmptyString => inr DEFAULT_PROMPTS
  | Some p =>
      if negb (path_exists w p) then inr DEFAULT_PROMPTS
      else if bool_decide (suffix_lower w p ∈ [".json"; ".jsonl"]) then
        match read_text w p with
        | inl e => inl e
        | inr text =>
            match json_loads w text with
            | inl e => inl e
            | inr (JList data) =>
                inr (map (json_str w) (filter (λ x, json_truthy x = true) data))
            | inr _ => inr DEFAULT_PROMPTS
            end
        end
      else
        match read_text w p with
        | inl e => inl e
        | inr text =>
            inr (map strip
                   (filter (λ line, strip line ≠ "") (splitlines text)))
        end
  end.

(** [prompts = load_prompts(args.prompts_file) if args.mode == "chat"
    else []]. *)
Definition main_prompts (w : Files) (m : Mode) (prompts_file : option string)
    : exn + list string :=
  match m with
  | chat => load_prompts w prompts_file
  | get => inr []
  end.

(** The characters of [s] that are not white space. *)
Definition nonblank (s : string) : list ascii :=
  filter (λ c, is_space c = false) (chars s).

(** [p] is not empty, neither begins nor ends with white space, and holds
    no line boundary. *)
Definition stripped_line (p : string) : Prop :=
  (∃ c, head (chars p) = Some c ∧ is_space c = false) ∧
  (∃ c, last (chars p) = Some c ∧ is_space c = false) ∧
  Forall (λ c, is_linebreak c = false) (chars p).

(** A file system with one text file and one JSON file. *)
Definition sample_files : Files :=
  mkFiles (λ p, bool_decide (p ∈ ["prompts.txt"; "prompts.json"]))
    (λ p, if String.eqb p "prompts.json" then ".json" else ".txt")
    (λ p, if String.eqb p "prompts.json" then inr "[ignored]"
          else inr (" What is a span?  " +:+ String "013" (String "010"
                    (String "010" "Define a trace"))))
    (λ _, inr (JList [JStr "What is a span?"; JStr ""; JStr " "]))
    (λ _, "").

(** * Properties *)

(** ** Counters *)

Lemma counter_total_insert_fresh `{Countable K}
    (k : K) (v : nat) (c : gmap K nat) :
  c !! k = None → counter_total (<[k := v]> c) = v + counter_total c.
Proof.
  intros Hk. unfold counter_total.
  apply (map_fold_insert_L (λ _ v acc, v + acc)); [intros; lia | done].
Qed.

Lemma counter_total_incr `{Countable K} (k : K) (c : gmap K nat) :
  counter_total (counter_incr k c) = S (counter_total c).
Proof.
  unfold counter_incr.
  destruct (c !! k) as [v|] eqn:E; simpl.
  - rewrite <- (insert_delete_id c k v E) at 2.
    rewrite <- insert_delete_eq.
    rewrite !counter_total_insert_fresh by apply lookup_delete_eq. lia.
  - by rewrite counter_total_insert_fresh.
Qed.

Lemma counter_get_incr `{Countable K} (k k' : K) (c : gmap K nat) :
  counter_get (counter_incr k c) k' =
  if decide (k = k') then S (counter_get c k') else counter_get c k'.
Proof.
  unfold counter_get, counter_incr. case_decide as E.
  - subst. by rewrite lookup_insert_eq.
  - by rewrite lookup_insert_ne.
Qed.

(** ** The folds, read as functions on the statistics *)

Lemma harvest_fold_folded args f call t0 t1 st :
  result f = inr (do_request call t0 t1) →
  harvest_fold args f st =
    (folded (bool_decide (mode args = chat)) call t0 t1 st, inr tt).
Proof.
  intros Hf. unfold harvest_fold, try_except, bind, lift, folded. rewrite Hf.
  destruct call as [r|cls msg]; simpl.
  - destruct (mode args); simpl; [done|].
    repeat case_bool_decide; simpl; try done.
    + destruct (json r) as [msg|[]]; done.
    + exfalso. intuition congruence.
    + exfalso. intuition congruence.
  - destruct msg; done.
Qed.

Lemma drain_fold_folded f call t0 t1 st :
  result f = inr (do_request call t0 t1) →
  drain_fold f st = (folded false call t0 t1 st, inr tt).
Proof.
  intros Hf. unfold drain_fold, try_except, bind, lift, folded. rewrite Hf.
  destruct call as [r|cls msg]; simpl; [done|]. destruct msg; done.
Qed.

(** ** The folds, one assignment at a time *)

(** The list of assignments is the fold: run to its end it gives what
    [harvest_fold] and [drain_fold] give, whatever the future holds. *)
Lemma folds_as_statements args f st :
  result f ≠ inl KeyboardInterrupt →
  harvest_fold args f st =
    (run_statements
       (fold_statements (bool_decide (mode args = chat)) (result f)) st,
     inr tt) ∧
  drain_fold f st =
    (run_statements (fold_statements false (result f)) st, inr tt).
Proof.
  intros Hki.
  unfold harvest_fold, drain_fold, try_except, bind, lift, fold_statements,
    handler_statements, run_statements.
  destruct (result f) as [[cls msg|]|[[] c [l|] e r]]; simpl; try done;
    rewrite ?bool_decide_and;
    try (destruct (bool_decide (mode args = chat)),
                  (bool_decide (c = Some 200%Z)); simpl; try done;
         destruct r as [r|]; simpl; [destruct (json r) as [m|[]]|]; done);
    by destruct (truthy e).
Qed.

Lemma bool_decide_Some (x y : Z) :
  bool_decide (Some x = Some y) = bool_decide (x = y).
Proof. apply bool_decide_ext. split; [by intros [= ->]|by intros ->]. Qed.

Lemma folded_statements b call t0 t1 st :
  folded b call t0 t1 st =
  run_statements (fold_statements b (inr (do_request call t0 t1))) st.
Proof.
  unfold folded, fold_statements, run_statements.
  destruct call as [r|cls msg]; simpl.
  - rewrite bool_decide_Some.
    destruct (b && _), (json r) as [m|[]]; done.
  - by destruct msg.
Qed.

Lemma fold_statements_length b call t0 t1 :
  length (fold_statements b (inr (do_request call t0 t1))) ≤ 5.
Proof.
  unfold fold_statements. destruct call as [r|cls msg]; simpl.
  - destruct (b && _), (json r) as [m|[]]; simpl; lia.
  - destruct msg; simpl; lia.
Qed.

Lemma partial_fold_full b call t0 t1 k st :
  5 ≤ k → partial_fold b call t0 t1 k st = folded b call t0 t1 st.
Proof.
  intros Hk. unfold partial_fold. rewrite take_ge; [by rewrite folded_statements|].
  pose proof (fold_statements_length b call t0 t1). lia.
Qed.

Lemma partial_fold_cut_of b call t0 t1 k st :
  cut_of b call t0 t1 st (partial_fold b call t0 t1 k st).
Proof.
  destruct (decide (5 ≤ k)) as [Hk|Hk].
  { rewrite partial_fold_full by done. constructor. }
  unfold partial_fold, fold_statements, handler_statements, run_statements.
  destruct call as [r|cls msg]; simpl.
  - rewrite bool_decide_Some.
    destruct (b && bool_decide _) eqn:Hb, (json r) as [m|[]] eqn:Hj; simpl;
      do 5 (try destruct k as [|k]); simpl; try lia;
      try (by constructor); try (by eapply cut_successes);
      try (by eapply cut_status); try (by eapply cut_latency).
    apply andb_true_iff in Hb as [-> Hc]. apply bool_decide_eq_true in Hc.
    by eapply cut_json.
  - destruct msg as [|c msg]; simpl;
      do 5 (try destruct k as [|k]); simpl; try lia;
      try (by constructor); try (by eapply cut_failures).
Qed.

(** ** The transitions *)

Lemma draw_raises {A} (o : exn + list A) r e :
  (∀ e', o = inl e' → ∃ cls msg, e' = Exception cls msg) →
  draw o r = inl e → ∃ cls msg, e = Exception cls msg.
Proof.
  intros Ho. unfold draw. destruct o as [e'|l]; [intros [= <-]; eauto|].
  destruct (l !! _); intros [= <-]; eauto.
Qed.

Lemma build_request_raises args r1 r2 e :
  build_request args r1 r2 = inl e → ∃ cls msg, e = Exception cls msg.
Proof.
  unfold build_request. destruct (mode args); [done|].
  destruct (draw (choice _) r1) as [e1|base] eqn:E1.
  - intros [= <-]. apply draw_raises in E1; [done|].
    unfold choice. destruct (prompts args); intros ? [= <-]; eauto.
  - destruct (draw (want_outcomes _) r2) as [e2|want] eqn:E2; [|done].
    intros [= <-]. apply draw_raises in E2; [done|].
    unfold want_outcomes, randint. case_match; intros ? [= <-]; eauto.
Qed.

Lemma submit_one_eq args r1 r2 call t0 t1 st :
  submit_one args r1 r2 call t0 t1 st =
    (count_attempt st,
     match build_request args r1 r2 with
     | inl e => inl e
     | inr req => inr (mkFuture (S (attempts st)) req
                         (inr (do_request call t0 t1)))
     end).
Proof.
  unfold submit_one, bind, modify, lift. simpl.
  by destruct (build_request args r1 r2).
Qed.

(** On futures made by [submit_one], [step] does what [transition] says
    and nothing else. *)
Lemma step_transition args ev s s' :
  submitted (pending s) →
  step args ev s = Some s' ↔ transition args ev s s'.
Proof.
  intros Hwf. split.
  - unfold step, submitted, pending in *.
    apply Forall_app in Hwf as [_ Hwf].
    destruct (phase s) eqn:Hph, ev as [r1 r2 call t0 t1|ids|i| | | | |i k];
      try discriminate.
    + destruct (todo s) eqn:Htodo; [|discriminate].
      rewrite submit_one_eq.
      destruct (build_request args r1 r2) as [e|req] eqn:Hreq; intros [= <-].
      * destruct (build_request_raises _ _ _ _ Hreq) as (cls & msg & ->).
        by apply tr_crash.
      * by apply tr_submit.
    + destruct (todo s) eqn:Htodo; [|discriminate]. intros [= <-].
      by apply tr_wait.
    + destruct (todo s !! i) as [f|] eqn:Hi; [|discriminate]. intros [= <-].
      destruct (proj1 (Forall_lookup _ _) Hwf _ _ Hi)
        as (call & t0 & t1 & _ & Hf).
      rewrite (harvest_fold_folded _ _ _ _ _ _ Hf). simpl.
      by eapply tr_harvest.
    + destruct (todo s) eqn:Htodo; [|discriminate]. intros [= <-].
      by apply tr_deadline.
    + intros [= <-]. apply tr_interrupt. by left.
    + destruct (todo s) eqn:Htodo; [|discriminate]. intros [= <-].
      by apply tr_interrupt_submit.
    + destruct (todo s !! i) as [f|] eqn:Hi; [|discriminate]. intros [= <-].
      destruct (proj1 (Forall_lookup _ _) Hwf _ _ Hi)
        as (call & t0 & t1 & _ & Hf).
      rewrite Hf. by eapply tr_interrupt_harvest.
    + destruct (todo s !! i) as [f|] eqn:Hi; [|discriminate]. intros [= <-].
      destruct (proj1 (Forall_lookup _ _) Hwf _ _ Hi)
        as (call & t0 & t1 & _ & Hf).
      rewrite (drain_fold_folded _ _ _ _ _ Hf). simpl.
      by eapply tr_drain.
    + destruct (todo s) eqn:Htodo; [|discriminate]. intros [= <-].
      by apply tr_finish.
    + intros [= <-]. apply tr_interrupt. by right.
    + destruct (todo s !! i) as [f|] eqn:Hi; [|discriminate]. intros [= <-].
      destruct (proj1 (Forall_lookup _ _) Hwf _ _ Hi)
        as (call & t0 & t1 & _ & Hf).
      rewrite Hf. by eapply tr_interrupt_drain.
  - intros Htr. unfold step.
    destruct Htr as [r1 r2 call t0 t1 req s Hph Htodo Hreq|
                     r1 r2 call t0 t1 cls msg s Hph Htodo Hreq|
                     ids s Hph Htodo|i f call t0 t1 s Hph Hi Hf|
                     s Hph Htodo|i f call t0 t1 s Hph Hi Hf|
                     s Hph Htodo|s [Hph|Hph]|s Hph Htodo|
                     i k f call t0 t1 s Hph Hi Hf|
                     i k f call t0 t1 s Hph Hi Hf];
      rewrite Hph; rewrite ?Htodo, ?Hi; try done.
    + by rewrite submit_one_eq, Hreq.
    + by rewrite submit_one_eq, Hreq.
    + by rewrite (harvest_fold_folded _ _ _ _ _ _ Hf).
    + by rewrite (drain_fold_folded _ _ _ _ _ Hf).
    + by rewrite Hf.
    + by rewrite Hf.
Qed.

Lemma transition_live args ev s s' :
  transition args ev s s' → phase s = Running ∨ phase s = Draining.
Proof. destruct 1; auto. Qed.

Lemma transition_submitted args ev s s' :
  submitted (pending s) → transition args ev s s' → submitted (pending s').
Proof.
  unfold submitted, pending. intros [Hin Htd]%Forall_app Htr.
  assert (Hfilter : ∀ (Q : Future → Prop) `{∀ f, Decision (Q f)},
            Forall (made_by (λ _, True)) (filter Q (inflight s))).
  { intros Q ?. apply Forall_forall. intros f [_ Hf]%list_elem_of_filter.
    by apply (proj1 (Forall_forall _ _) Hin). }
  destruct Htr as [r1 r2 call t0 t1 req s Hph Htodo Hreq|
                   r1 r2 call t0 t1 cls msg s Hph Htodo Hreq|
                   ids s Hph Htodo|i f call t0 t1 s Hph Hi Hf|
                   s Hph Htodo|i f call t0 t1 s Hph Hi Hf|
                   s Hph Htodo|s Hph|s Hph Htodo|
                   i k f call t0 t1 s Hph Hi Hf|
                   i k f call t0 t1 s Hph Hi Hf]; simpl;
    rewrite ?Forall_app; repeat split;
    auto using Forall_delete, Forall_nil_2.
  constructor; [|done]. by exists call, t0, t1.
Qed.

(** Induction on a run, transition by transition. *)
Lemma exec_transitions_from args (I : State → Prop) (s0 : State) :
  submitted (pending s0) → I s0 →
  (∀ ev s s', submitted (pending s) → I s → transition args ev s s' → I s') →
  ∀ evs s, exec args evs s0 = Some s → I s ∧ submitted (pending s).
Proof.
  intros Hwf0 H0 Hstep evs. revert s0 Hwf0 H0.
  induction evs as [|ev evs IH]; simpl; intros s0 Hwf HI s.
  - by intros [= <-].
  - destruct (step args ev s0) as [s1|] eqn:Hs; [|done].
    apply step_transition in Hs; [|done].
    apply IH; eauto using transition_submitted.
Qed.

Lemma init_pending : submitted (pending init).
Proof. constructor. Qed.

Lemma exec_transitions args (I : State → Prop) :
  I init →
  (∀ ev s s', submitted (pending s) → I s → transition args ev s s' → I s') →
  ∀ evs s, exec args evs init = Some s → I s.
Proof.
  intros H0 Hstep evs s Hex.
  by apply (exec_transitions_from args I init init_pending H0 Hstep evs s).
Qed.

Lemma exec_made_by args evs s :
  exec args evs init = Some s → Forall (made_by (λ _, True)) (pending s).
Proof.
  intros Hex.
  by apply (exec_transitions_from args (λ _, True) init init_pending I
              (λ _ _ _ _ _ _, I) evs s).
Qed.

Lemma exec_app args evs1 evs2 s :
  exec args (evs1 ++ evs2) s =
  match exec args evs1 s with
  | Some s1 => exec args evs2 s1
  | None => None
  end.
Proof.
  revert s. induction evs1 as [|ev evs1 IH]; intros s; simpl; [done|].
  destruct (step args ev s); [apply IH|done].
Qed.

Lemma exec_snoc args evs ev s :
  exec args (evs ++ [ev]) s =
  match exec args evs s with
  | Some s1 => step args ev s1
  | None => None
  end.
Proof.
  rewrite exec_app. destruct (exec args evs s) as [s1|]; [|done].
  simpl. by destruct (step args ev s1).
Qed.

(** Induction on a run, with the events that led to each state. *)
Lemma exec_transitions_trace args (I : list Event → State → Prop) :
  I [] init →
  (∀ evs ev s s', exec args evs init = Some s → I evs s →
                  transition args ev s s' → I (evs ++ [ev]) s') →
  ∀ evs s, exec args evs init = Some s → I evs s.
Proof.
  intros H0 Hstep evs. induction evs as [|ev evs IH] using rev_ind; intros s.
  - by intros [= <-].
  - rewrite exec_snoc. destruct (exec args evs init) as [s1|] eqn:Hex; [|done].
    intros Hs. apply step_transition in Hs; [|by eapply exec_made_by].
    eauto.
Qed.

(** A property of the statistics that the count of an attempt, every fold
    and every part of a fold that an interrupt leaves preserve holds at
    every point of every run. *)
Lemma exec_stats_invariant args (I : Stats → Prop) :
  I stats0 →
  (∀ st, I st → I (count_attempt st)) →
  (∀ b call t0 t1 st st', I st → cut_of b call t0 t1 st st' → I st') →
  ∀ evs s, exec args evs init = Some s → I (stats s).
Proof.
  intros H0 Hatt Hfold.
  apply (exec_transitions args (λ s, I (stats s))); [done|].
  intros ev s s' _ HI Htr. destruct Htr; simpl; auto;
    eauto using cut_whole, partial_fold_cut_of.
Qed.

Lemma step_drained args ev s s' :
  step args ev s = Some s' → drained s → drained s'.
Proof.
  unfold step, drained, pending, after_fold.
  destruct (phase s) eqn:Hph, ev as [r1 r2 call t0 t1|ids|i| | | | |i k];
    try discriminate; intros Hs Hd; revert Hs;
    repeat (case_match; try discriminate); intros [= <-]; simpl in *;
    subst; simpl in *; try done;
    try match goal with
        | H : handle ?e = _ |- _ => by destruct e
        end.
  by rewrite Hd.
Qed.

Lemma exec_drained args evs s s' :
  exec args evs s = Some s' → drained s → drained s'.
Proof.
  revert s. induction evs as [|ev evs IH]; simpl; intros s.
  - by intros [= <-].
  - destruct (step args ev s) eqn:Hstep; [|done].
    eauto using step_drained.
Qed.

(** A run that has left [main]'s loops goes no further. *)
Lemma exec_done args evs s s' :
  exec args evs s = Some s' → ¬ live s → evs = [] ∧ s' = s.
Proof.
  destruct evs as [|ev evs]; simpl; [by intros [= <-]|].
  intros Hs Hl. exfalso. apply Hl. unfold step, live in *.
  destruct (phase s); auto; by destruct ev.
Qed.
(** ** Attempts, successes and failures *)

Lemma json_failures_snoc args evs ev s0 s :
  exec args evs s0 = Some s →
  json_failures args (evs ++ [ev]) s0 =
  json_failures args evs s0 + (if json_check_fails args ev s then 1 else 0).
Proof.
  revert s0. induction evs as [|ev' evs IH]; simpl; intros s0.
  - intros [= <-]. destruct (step args ev s0); lia.
  - destruct (step args ev' s0) as [s1|]; [|done].
    intros Hex. rewrite (IH _ Hex). lia.
Qed.

(** What one whole fold adds to [successes + failures]: one, and one more
    when the JSON check of the harvest fails. *)
Lemma folded_counts b call t0 t1 st :
  attempts (folded b call t0 t1 st) = attempts st ∧
  successes (folded b call t0 t1 st) + failures (folded b call t0 t1 st) =
    S (successes st + failures st) +
    match call with
    | Responded r =>
        if b && bool_decide (status_code r = 200%Z)
        then match json r with inl _ => 1 | inr _ => 0 end
        else 0
    | Raised _ _ => 0
    end.
Proof.
  destruct call as [r|cls msg]; simpl; [|lia].
  destruct (b && _), (json r); simpl; lia.
Qed.

Lemma json_check_fails_harvest args i f call t0 t1 s :
  phase s = Running → todo s !! i = Some f →
  result f = inr (do_request call t0 t1) →
  (if json_check_fails args (Fold i) s then 1 else 0) =
    match call with
    | Responded r =>
        if bool_decide (mode args = chat) && bool_decide (status_code r = 200%Z)
        then match json r with inl _ => 1 | inr _ => 0 end
        else 0
    | Raised _ _ => 0
    end.
Proof.
  intros Hph Hi Hf. unfold json_check_fails. rewrite Hph, Hi, Hf.
  destruct call as [r|cls msg]; simpl; [|done].
  rewrite bool_decide_and, bool_decide_Some.
  destruct (bool_decide (mode args = chat)), (bool_decide (status_code r = _));
    simpl; try done.
  by destruct (json r).
Qed.

(** Short of a crash and of an interrupt inside [submit_one] or inside a
    fold, every attempt is pending or was counted once, and once more for
    each JSON check that failed. *)
Lemma attempts_ledger args evs s :
  exec args evs init = Some s →
  Forall (λ ev, inside_submit ev = false) evs →
  Forall (λ ev, inside_fold ev = false) evs →
  ¬ crashed s →
  attempts (stats s) + json_failures args evs init =
    successes (stats s) + failures (stats s) + length (pending s).
Proof.
  revert evs s. apply (exec_transitions_trace args (λ evs s,
    Forall (λ ev, inside_submit ev = false) evs →
    Forall (λ ev, inside_fold ev = false) evs →
    ¬ crashed s →
    attempts (stats s) + json_failures args evs init =
      successes (stats s) + failures (stats s) + length (pending s)));
    [done|].
  intros evs ev s s' Hex IH Htr [Hs1 Hs2]%Forall_app [Hf1 Hf2]%Forall_app Hnc.
  apply Forall_cons in Hs2 as [Hs2 _]. apply Forall_cons in Hf2 as [Hf2 _].
  assert (Hlive : ¬ crashed s).
  { intros [e He]. destruct (transition_live _ _ _ _ Htr); congruence. }
  specialize (IH Hs1 Hf1 Hlive).
  rewrite (json_failures_snoc _ _ _ _ _ Hex). unfold pending in *.
  destruct Htr as [r1 r2 call t0 t1 req s Hph Htodo Hreq|
                   r1 r2 call t0 t1 cls msg s Hph Htodo Hreq|
                   ids s Hph Htodo|i f call t0 t1 s Hph Hi Hf|
                   s Hph Htodo|i f call t0 t1 s Hph Hi Hf|
                   s Hph Htodo|s Hph|s Hph Htodo|
                   i k f call t0 t1 s Hph Hi Hf|
                   i k f call t0 t1 s Hph Hi Hf];
    try discriminate;
    try (rewrite (json_check_fails_harvest _ _ _ _ _ _ _ Hph Hi Hf));
    try (replace (json_check_fails args _ s) with false
           by (unfold json_check_fails; by destruct (phase s)));
    cbn [stats inflight todo phase];
    rewrite ?Htodo, ?length_app in *; simpl in *; try lia.
  - exfalso. apply Hnc. by eexists.
  - pose proof (filter_app_complement (λ f, fid f ∈ ids) (inflight s)) as Hp.
    apply Permutation_length in Hp. rewrite length_app in Hp. lia.
  - rewrite length_delete by eauto. apply lookup_lt_Some in Hi.
    destruct (folded_counts (bool_decide (mode args = chat)) call t0 t1
                (stats s)) as [Hatt Hcount].
    rewrite Hatt, Hcount. lia.
  - rewrite length_delete by eauto. apply lookup_lt_Some in Hi.
    destruct (folded_counts false call t0 t1 (stats s)) as [Hatt Hcount].
    rewrite Hatt, Hcount. destruct call; simpl; lia.
Qed.

(** C1, as stated, fails: [submit_one] counts the attempt when the request
    is submitted, the fold counts its outcome later. After one submission
    [attempts] is 1 while [successes + failures] is still 0. *)
Lemma attempts_ahead_of_outcomes :
  ∃ s, exec args_get [Submit 0 0 ok200 (millis 0) (millis 10)] init = Some s ∧
       attempts (stats s) = 1 ∧
       attempts (stats s) ≠ successes (stats s) + failures (stats s).
Proof.
  eexists. split; [vm_compute; reflexivity|]. simpl. split; [done | lia].
Qed.

(** C1, amended: in a run where no JSON check of the harvest has failed
    (every get run is one) and the operator's interrupt, if any, has not
    fallen inside [submit_one] or inside a fold, at every point that
    [main] has not left on an exception, [attempts] equals
    [successes + failures] plus the number of submitted requests whose
    outcome is not folded yet; hence [attempts = successes + failures]
    whenever nothing is pending, as after a drain that ran to its end. *)
Theorem attempts_balance args evs s :
  exec args evs init = Some s →
  json_failures args evs init = 0 →
  Forall (λ ev, inside_submit ev = false) evs →
  Forall (λ ev, inside_fold ev = false) evs →
  ¬ crashed s →
  attempts (stats s) =
    successes (stats s) + failures (stats s) + length (pending s) ∧
  (pending s = [] →
   attempts (stats s) = successes (stats s) + failures (stats s)) ∧
  (phase s = Done false →
   attempts (stats s) = successes (stats s) + failures (stats s)).
Proof.
  intros Hex Hjson Hsub Hfold Hnc.
  pose proof (attempts_ledger _ _ _ Hex Hsub Hfold Hnc) as Hbal.
  rewrite Hjson, Nat.add_0_r in Hbal.
  split; [done|]. split.
  - intros Hp. rewrite Hp in Hbal. simpl in Hbal. lia.
  - intros Hph. pose proof (exec_drained _ _ _ _ Hex I) as Hd.
    unfold drained in Hd. rewrite Hph in Hd. rewrite Hd in Hbal.
    simpl in Hbal. lia.
Qed.

Lemma attempts_balance_witness :
  ∃ s, exec args_chat (run_drained bad_json) init = Some s ∧
       attempts (stats s) = 1 ∧
       attempts (stats s) = successes (stats s) + failures (stats s).
Proof.
  eexists. split; [vm_compute; reflexivity|]. split; [reflexivity|].
  apply (attempts_balance args_chat (run_drained bad_json)).
  - vm_compute; reflexivity.
  - vm_compute; reflexivity.
  - repeat constructor.
  - repeat constructor.
  - intros [e He]. discriminate He.
  - reflexivity.
Defined.

(** ** A target that answers 500 to everything *)

Lemma do_request_answers c call t0 t1 call' t0' t1' :
  do_request call t0 t1 = do_request call' t0' t1' →
  answers c call' → answers c call.
Proof.
  destruct call as [r|cls msg], call' as [r'|cls' msg']; simpl; try done.
  by intros [= -> _].
Qed.

Lemma folded_500 b r t0 t1 st :
  status_code r = 500%Z →
  folded b (Responded r) t0 t1 st =
    count_success (Some 500%Z) (PyFloat.sub t1 t0) st.
Proof.
  intros Hc. unfold folded. rewrite Hc.
  rewrite bool_decide_eq_false_2 by lia. by rewrite andb_false_r.
Qed.

(** C7: when the target answers every request with HTTP 500, a run that
    completes and drains ends with [failures = 0] and
    [status_counts[500] = attempts]. *)
Theorem all_500_counted_as_successes args evs s :
  calls_satisfy (answers 500) evs →
  exec args evs init = Some s →
  phase s = Done false →
  failures (stats s) = 0 ∧
  counter_get (status_counts (stats s)) (Some 500%Z) = attempts (stats s).
Proof.
  intros Hc Hex Hph.
  cut (failures (stats s) = 0 ∧
       counter_get (status_counts (stats s)) (Some 500%Z) +
         length (pending s) = attempts (stats s)).
  { intros [Hf Hcount]. split; [done|].
    pose proof (exec_drained _ _ _ _ Hex I) as Hd.
    unfold drained in Hd. rewrite Hph in Hd. rewrite Hd in Hcount.
    simpl in Hcount. lia. }
  assert (Hgo : live s ∨ phase s = Done false) by (by right).
  clear Hph. revert evs s Hex Hc Hgo.
  enough (∀ evs s, exec args evs init = Some s →
    calls_satisfy (answers 500) evs → live s ∨ phase s = Done false →
    Forall (made_by (answers 500)) (pending s) ∧
    failures (stats s) = 0 ∧
    counter_get (status_counts (stats s)) (Some 500%Z) +
      length (pending s) = attempts (stats s)) as Hinv.
  { intros evs s Hex Hc Hgo. by destruct (Hinv evs s Hex Hc Hgo) as (_ & ?). }
  apply (exec_transitions_trace args (λ evs s,
    calls_satisfy (answers 500) evs → live s ∨ phase s = Done false →
    Forall (made_by (answers 500)) (pending s) ∧
    failures (stats s) = 0 ∧
    counter_get (status_counts (stats s)) (Some 500%Z) +
      length (pending s) = attempts (stats s))).
  { intros _ _. split; [constructor|done]. }
  intros evs ev s s' Hex IH Htr [Hc Hev]%Forall_app Hgo.
  apply Forall_cons in Hev as [Hev _].
  destruct (IH Hc (or_introl (transition_live _ _ _ _ Htr)))
    as (Hwf & Hf & Hcount).
  unfold pending in *. apply Forall_app in Hwf as [Hin Htd].
  assert (Hfold : ∀ i f call t0 t1,
            todo s !! i = Some f → result f = inr (do_request call t0 t1) →
            ∃ r, call = Responded r ∧ status_code r = 500%Z).
  { intros i f call t0 t1 Hi Hres.
    destruct (proj1 (Forall_lookup _ _) Htd _ _ Hi)
      as (call' & t0' & t1' & Hans & Hres').
    rewrite Hres in Hres'. injection Hres' as Hres'.
    pose proof (do_request_answers _ _ _ _ _ _ _ Hres' Hans) as Ha.
    destruct call as [r|]; [by exists r|done]. }
  destruct Htr as [r1 r2 call t0 t1 req s Hph Htodo Hreq|
                   r1 r2 call t0 t1 cls msg s Hph Htodo Hreq|
                   ids s Hph Htodo|i f call t0 t1 s Hph Hi Hres|
                   s Hph Htodo|i f call t0 t1 s Hph Hi Hres|
                   s Hph Htodo|s Hph|s Hph Htodo|
                   i k f call t0 t1 s Hph Hi Hres|
                   i k f call t0 t1 s Hph Hi Hres];
    cbn [stats inflight todo phase] in *;
    try (by destruct Hgo as [[?|?]|?]);
    rewrite ?Htodo, ?app_nil_r, ?length_app in *.
  - split; [|simpl in *; lia].
    apply Forall_app. split; [done|]. constructor; [|done].
    by exists call, t0, t1.
  - split; [|split; [done|]].
    + apply Forall_app. split; apply Forall_forall;
        intros f [_ Hf']%list_elem_of_filter;
        by apply (proj1 (Forall_forall _ _) Hin).
    + pose proof (filter_app_complement (λ f, fid f ∈ ids) (inflight s))
        as Hp.
      apply Permutation_length in Hp. rewrite length_app in *. simpl in *. lia.
  - destruct (Hfold _ _ _ _ _ Hi Hres) as (r & -> & Hr).
    rewrite (folded_500 _ _ _ _ _ Hr). simpl.
    split; [apply Forall_app; split; [done|by apply Forall_delete]|].
    split; [done|]. rewrite counter_get_incr, decide_True by done.
    rewrite length_delete by eauto.
    apply lookup_lt_Some in Hi. lia.
  - split; [done|]. split; [done|]. simpl in *. lia.
  - destruct (Hfold _ _ _ _ _ Hi Hres) as (r & -> & Hr).
    rewrite (folded_500 _ _ _ _ _ Hr). simpl.
    split; [apply Forall_app; split; [done|by apply Forall_delete]|].
    split; [done|]. rewrite counter_get_incr, decide_True by done.
    rewrite length_delete by eauto.
    apply lookup_lt_Some in Hi. lia.
  - split; [done|]. split; [done|]. simpl in *. lia.
Qed.

Lemma all_500_counted_as_successes_witness :
  ∃ s, exec args_chat (run_two err500) init = Some s ∧
       failures (stats s) = 0 ∧
       counter_get (status_counts (stats s)) (Some 500%Z) = attempts (stats s).
Proof.
  eexists. split; [vm_compute; reflexivity|].
  apply (all_500_counted_as_successes args_chat (run_two err500)).
  - repeat constructor.
  - vm_compute; reflexivity.
  - reflexivity.
Defined.
(** ** Latencies and the status histogram against [successes] *)

(** A transition other than an interrupt inside a fold either counts one
    success, with one latency appended and one bucket of the status
    histogram incremented, or leaves [successes], [latencies] and
    [status_counts] as they are. *)
Lemma transition_success args ev s s' :
  transition args ev s s' → inside_fold ev = false →
  (successes (stats s') = S (successes (stats s)) ∧
   (∃ l, latencies (stats s') = latencies (stats s) ++ [l]) ∧
   (∃ c, status_counts (stats s') = counter_incr c (status_counts (stats s))))
  ∨
  (successes (stats s') = successes (stats s) ∧
   latencies (stats s') = latencies (stats s) ∧
   status_counts (stats s') = status_counts (stats s)).
Proof.
  assert (Hfold : ∀ b call t0 t1 st,
    (successes (folded b call t0 t1 st) = S (successes st) ∧
     (∃ l, latencies (folded b call t0 t1 st) = latencies st ++ [l]) ∧
     (∃ c, status_counts (folded b call t0 t1 st)
           = counter_incr c (status_counts st))) ∨
    (successes (folded b call t0 t1 st) = successes st ∧
     latencies (folded b call t0 t1 st) = latencies st ∧
     status_counts (folded b call t0 t1 st) = status_counts st)).
  { intros b call t0 t1 st. destruct call as [r|cls msg]; simpl; [left|by right].
    destruct (b && _), (json r); simpl; eauto. }
  destruct 1; simpl; intros Hev; try discriminate; auto.
Qed.

(** Short of an interrupt inside a fold, one latency is recorded for
    each success. *)
Lemma latencies_counted args evs s :
  exec args evs init = Some s →
  Forall (λ ev, inside_fold ev = false) evs →
  length (latencies (stats s)) = successes (stats s).
Proof.
  revert evs s. apply (exec_transitions_trace args (λ evs s,
    Forall (λ ev, inside_fold ev = false) evs →
    length (latencies (stats s)) = successes (stats s))); [done|].
  intros evs ev s s' Hex IH Htr [Hf1 Hf2]%Forall_app.
  apply Forall_cons in Hf2 as [Hf2 _]. specialize (IH Hf1).
  destruct (transition_success _ _ _ _ Htr Hf2)
    as [(-> & [l ->] & _)|(-> & -> & _)]; [|done].
  rewrite length_app. simpl. lia.
Qed.

(** Short of an interrupt inside a fold, the buckets of the status
    histogram sum to [successes]. *)
Lemma status_counted args evs s :
  exec args evs init = Some s →
  Forall (λ ev, inside_fold ev = false) evs →
  counter_total (status_counts (stats s)) = successes (stats s).
Proof.
  revert evs s. apply (exec_transitions_trace args (λ evs s,
    Forall (λ ev, inside_fold ev = false) evs →
    counter_total (status_counts (stats s)) = successes (stats s))); [done|].
  intros evs ev s s' Hex IH Htr [Hf1 Hf2]%Forall_app.
  apply Forall_cons in Hf2 as [Hf2 _]. specialize (IH Hf1).
  destruct (transition_success _ _ _ _ Htr Hf2)
    as [(-> & _ & [c ->])|(-> & _ & ->)]; [|done].
  rewrite counter_total_incr. lia.
Qed.

(** C9, as stated, fails: [successes += 1] and [latencies.append(lat)] are
    two statements, and the operator's [KeyboardInterrupt] can fall
    between them; [except Exception] lets it through, and the report is
    computed with one success and no latency. *)
Lemma latency_missing_after_interrupt :
  ∃ s rep, exec args_get (run_cut 1) init = Some s ∧
           successes (stats s) = 1 ∧
           latencies (stats s) = [] ∧
           report s = Some (inr rep) ∧
           rep_successes rep = 1 ∧
           rep_p95_lat rep = None.
Proof.
  do 2 eexists. split; [vm_compute; reflexivity|].
  split; [reflexivity|]. split; [reflexivity|].
  split; [vm_compute; reflexivity|]. split; reflexivity.
Qed.

(** C9, amended: at every point of a run at which the main thread is not
    inside a fold, and so in the report of every run that the operator
    did not interrupt inside a fold, the number of recorded latencies
    equals [successes]; a transition that counts a success appends exactly
    one latency, and any other transition appends none; in both folds an
    outcome with [ok = False] is counted as a failure with no latency. *)
Theorem latencies_match_successes args evs s :
  exec args evs init = Some s →
  Forall (λ ev, inside_fold ev = false) evs →
  length (latencies (stats s)) = successes (stats s) ∧
  (∀ ev s', inside_fold ev = false → step args ev s = Some s' →
    (successes (stats s') = S (successes (stats s)) ∧
     ∃ l, latencies (stats s') = latencies (stats s) ++ [l]) ∨
    (successes (stats s') = successes (stats s) ∧
     latencies (stats s') = latencies (stats s))) ∧
  ∀ f cls msg t0 t1 st,
    result f = inr (do_request (Raised cls msg) t0 t1) →
    latencies (harvest_fold args f st).1 = latencies st ∧
    failures (harvest_fold args f st).1 = S (failures st) ∧
    latencies (drain_fold f st).1 = latencies st ∧
    failures (drain_fold f st).1 = S (failures st).
Proof.
  intros Hex Hwhole. split; [|split].
  - by eapply latencies_counted.
  - intros ev s' Hev Hstep.
    apply step_transition in Hstep; [|by eapply exec_made_by].
    destruct (transition_success _ _ _ _ Hstep Hev)
      as [(? & ? & _)|(? & ? & _)]; [left|right]; done.
  - intros f cls msg t0 t1 st Hf.
    rewrite (harvest_fold_folded _ _ _ _ _ _ Hf).
    by rewrite (drain_fold_folded _ _ _ _ _ Hf).
Qed.

Lemma latencies_match_successes_witness :
  ∃ s, exec args_chat (run_two bad_json) init = Some s ∧
       length (latencies (stats s)) = successes (stats s) ∧
       successes (stats s) = 2 ∧ failures (stats s) = 1.
Proof.
  eexists. split; [vm_compute; reflexivity|].
  split; [|split; vm_compute; reflexivity].
  apply (proj1 (latencies_match_successes args_chat (run_two bad_json) _
                  ltac:(vm_compute; reflexivity)
                  ltac:(repeat constructor))).
Defined.

(** C10, as stated, fails: [successes += 1] and [status_counts[code] += 1]
    are two statements, and the operator's [KeyboardInterrupt] can fall
    between them; the report then shows one success and an empty
    histogram. *)
Lemma status_missing_after_interrupt :
  ∃ s rep, exec args_get (run_cut 1) init = Some s ∧
           successes (stats s) = 1 ∧
           counter_total (status_counts (stats s)) = 0 ∧
           report s = Some (inr rep) ∧
           rep_successes rep = 1 ∧
           rep_status_counts rep = ∅.
Proof.
  do 2 eexists. split; [vm_compute; reflexivity|].
  split; [reflexivity|]. split; [reflexivity|].
  split; [vm_compute; reflexivity|]. split; reflexivity.
Qed.

(** C10, amended: at every point of a run at which the main thread is not
    inside a fold, and so in the report of every run that the operator
    did not interrupt inside a fold, the counts of the status histogram
    sum to [successes]; a transition that counts a success increments
    exactly one bucket by one, and no other transition touches the
    histogram. *)
Theorem status_counts_sum_to_successes args evs s :
  exec args evs init = Some s →
  Forall (λ ev, inside_fold ev = false) evs →
  counter_total (status_counts (stats s)) = successes (stats s) ∧
  ∀ ev s', inside_fold ev = false → step args ev s = Some s' →
    (successes (stats s') = S (successes (stats s)) ∧
     ∃ c, status_counts (stats s') = counter_incr c (status_counts (stats s)) ∧
          ∀ c', counter_get (status_counts (stats s')) c' =
                if decide (c = c')
                then S (counter_get (status_counts (stats s)) c')
                else counter_get (status_counts (stats s)) c') ∨
    (successes (stats s') = successes (stats s) ∧
     status_counts (stats s') = status_counts (stats s)).
Proof.
  intros Hex Hwhole. split; [by eapply status_counted|].
  intros ev s' Hev Hstep.
  apply step_transition in Hstep; [|by eapply exec_made_by].
  destruct (transition_success _ _ _ _ Hstep Hev)
    as [(? & _ & [c Hc])|(? & _ & ?)]; [left|right]; [|done].
  split; [done|]. exists c. split; [done|].
  intros c'. rewrite Hc. apply counter_get_incr.
Qed.

Lemma status_counts_sum_to_successes_witness :
  ∃ s, exec args_chat (run_two bad_json) init = Some s ∧
       counter_total (status_counts (stats s)) = successes (stats s) ∧
       counter_get (status_counts (stats s)) (Some 200%Z) = 2.
Proof.
  eexists. split; [vm_compute; reflexivity|].
  split; [|vm_compute; reflexivity].
  apply (status_counts_sum_to_successes args_chat (run_two bad_json));
    [vm_compute; reflexivity|repeat constructor].
Defined.
(** ** The request executor *)

(** C2, as stated, fails on the error kind: it is [str(e)], which is empty
    for an exception raised without a message. *)
Lemma do_request_error_kind_can_be_empty :
  ok (do_request silent (millis 0) (millis 10)) = false ∧
  code (do_request silent (millis 0) (millis 10)) = None ∧
  err (do_request silent (millis 0) (millis 10)) = Some "" ∧
  truthy (err (do_request silent (millis 0) (millis 10))) = false.
Proof. repeat split. Qed.

(** C2, amended: when the HTTP call raises an [Exception], the outcome has
    [ok = False], [code = None] and [err = str(e)], which is non-empty
    exactly when the text of the exception is; when a response is received,
    whatever its status, the outcome has [ok = True] and carries that
    status. Hence [ok] holds exactly when [code] is not [None]. *)
Theorem do_request_outcome call t0 t1 :
  let o := do_request call t0 t1 in
  match call with
  | Raised cls msg =>
      o = mkOutcome false None (Some (PyFloat.sub t1 t0)) (Some msg) None ∧
      (truthy (err o) = true ↔ msg ≠ "")
  | Responded r =>
      o = mkOutcome true (Some (status_code r)) (Some (PyFloat.sub t1 t0))
            None (Some r)
  end ∧
  (ok o = true → code o ≠ None) ∧
  (ok o = false → code o = None).
Proof.
  destruct call as [r|cls msg]; simpl.
  - repeat split; done.
  - repeat split; try done; destruct msg; done.
Qed.

Lemma do_request_outcome_witness :
  code (do_request err500 (millis 0) (millis 10)) ≠ None ∧
  code (do_request refused (millis 0) (millis 10)) = None.
Proof.
  split.
  - apply (do_request_outcome err500 (millis 0) (millis 10)). reflexivity.
  - apply (do_request_outcome refused (millis 0) (millis 10)). reflexivity.
Defined.

(** ** The drain and the operator's interrupt *)

Lemma folded_counts_one b call t0 t1 st :
  successes (folded b call t0 t1 st) + failures (folded b call t0 t1 st) =
    S (successes st + failures st) ∨
  (b = true ∧ ¬ decodable call).
Proof.
  destruct call as [r|cls msg]; simpl; [|left; lia].
  destruct b; simpl; [|left; lia].
  case_bool_decide as E; simpl; [|left; lia].
  destruct (json r) as [msg|[]] eqn:Ej; simpl; [|left; lia].
  right. split; [done|]. intros Hd. specialize (Hd E). congruence.
Qed.

(** The drain loop, left alone, visits every future it was given: from
    the start of the drain with [l] pending, [length l] folds and the end
    of the loop lead to the report with nothing pending and one outcome
    counted for each of them. *)
Lemma drain_loop_completes args (l : list Future) (st : Stats) :
  Forall (made_by (λ _, True)) l →
  ∃ st', exec args (replicate (length l) (Fold 0) ++ [Finish])
           (mkState Draining st [] l) =
           Some (mkState (Done false) st' [] []) ∧
         successes st' + failures st' = successes st + failures st + length l ∧
         attempts st' = attempts st.
Proof.
  intros Hl. revert st. induction Hl as [|f l Hf Hl IH]; intros st.
  - exists st. split; [done|]. simpl. lia.
  - destruct Hf as (call & t0 & t1 & _ & Hf).
    destruct (IH (folded false call t0 t1 st)) as (st' & Hex & Hcount & Hatt).
    exists st'. split; [|split].
    + simpl. rewrite (drain_fold_folded _ _ _ _ _ Hf). simpl. exact Hex.
    + rewrite Hcount. simpl.
      destruct (folded_counts_one false call t0 t1 st) as [->|[? _]];
        [lia|done].
    + rewrite Hatt. by destruct call.
Qed.

(** A run that reaches its deadline folds all that is pending before the
    report. *)
Lemma deadline_drains_all args evs s :
  exec args evs init = Some s →
  phase s = Running → todo s = [] →
  ∃ s', exec args (Deadline :: replicate (length (pending s)) (Fold 0) ++
                   [Finish]) s = Some s' ∧
        phase s' = Done false ∧
        pending s' = [] ∧
        successes (stats s') + failures (stats s') =
          successes (stats s) + failures (stats s) + length (pending s).
Proof.
  intros Hex Hph Htodo.
  pose proof (exec_made_by _ _ _ Hex) as Hwf.
  unfold pending in *. rewrite Htodo, app_nil_r in *.
  destruct (drain_loop_completes args (inflight s) (stats s) Hwf)
    as (st' & Hdrain & Hcount & _).
  eexists. split.
  - simpl. unfold step. rewrite Hph, Htodo. exact Hdrain.
  - done.
Qed.

(** C3: the code does not do what the claim says. The handler of
    [KeyboardInterrupt] sits outside the [with] block that holds the
    drain loop: with one request pending at the interrupt, the run goes
    straight to the report, which counts the attempt and no outcome,
    while the same run left through the deadline folds that outcome. *)
Theorem interrupt_leaves_pending_unfolded :
  ∃ s rep s_d,
    exec args_get run_interrupted init = Some s ∧
    phase s = Done true ∧
    length (pending s) = 1 ∧
    report s = Some (inr rep) ∧
    rep_total rep = 1 ∧
    rep_successes rep + rep_failures rep = 0 ∧
    (∀ evs s', exec args_get evs s = Some s' → evs = [] ∧ s' = s) ∧
    exec args_get (run_drained ok200) init = Some s_d ∧
    phase s_d = Done false ∧
    pending s_d = [] ∧
    successes (stats s_d) = 1.
Proof.
  do 3 eexists. split; [vm_compute; reflexivity|].
  split; [reflexivity|]. split; [reflexivity|].
  split; [vm_compute; reflexivity|]. split; [reflexivity|].
  split; [reflexivity|]. split.
  - intros evs s' Hex. apply (exec_done _ _ _ _ Hex).
    intros [H|H]; discriminate H.
  - split; [vm_compute; reflexivity|]. repeat split.
Qed.

(** The same holds at every point of the running phase: the interrupt
    ends the run with the statistics as they are and everything that is
    pending left unfolded. *)
Lemma interrupt_skips_drain args evs s :
  exec args evs init = Some s →
  phase s = Running →
  ∃ s', exec args (evs ++ [Interrupt]) init = Some s' ∧
        phase s' = Done true ∧
        stats s' = stats s ∧
        pending s' = pending s ∧
        report s' = Some (report_of (stats s)) ∧
        ∀ evs' s'', exec args evs' s' = Some s'' → evs' = [] ∧ s'' = s'.
Proof.
  intros Hex Hph. eexists. rewrite exec_snoc, Hex. unfold step. rewrite Hph.
  split; [reflexivity|]. simpl. do 4 (split; [done|]).
  intros evs' s'' Hex'. apply (exec_done _ _ _ _ Hex').
  intros [H|H]; discriminate H.
Qed.

(** ** A chat response that does not decode *)

(** C4: in the harvest of a chat run, when the body of a 200 response
    fails to decode, the error is caught by the fold: [failures] goes up
    by one, the error key is counted in [error_samples], and the loop goes
    on to the next future. (The outcome had been counted as a success
    before the check.) *)
Theorem malformed_json_folded_as_failure args s i f r t0 t1 msg :
  mode args = chat →
  phase s = Running →
  todo s !! i = Some f →
  result f = inr (do_request (Responded r) t0 t1) →
  status_code r = 200%Z →
  json r = inl msg →
  ∃ st',
    harvest_fold args f (stats s) = (st', inr tt) ∧
    step args (Fold i) s =
      Some (mkState Running st' (inflight s) (delete i (todo s))) ∧
    failures st' = S (failures (stats s)) ∧
    error_samples st' =
      counter_incr (error_key msg) (error_samples (stats s)) ∧
    counter_get (error_samples st') (error_key msg) =
      S (counter_get (error_samples (stats s)) (error_key msg)) ∧
    successes st' = S (successes (stats s)) ∧
    attempts st' = attempts (stats s).
Proof.
  intros Hmode Hph Hi Hf Hcode Hjson. eexists.
  split; [by apply harvest_fold_folded|].
  unfold step. rewrite Hph, Hi. unfold after_fold.
  rewrite (harvest_fold_folded _ _ _ _ _ _ Hf).
  unfold folded. rewrite Hmode, Hcode, Hjson. simpl.
  repeat split. rewrite counter_get_incr. by rewrite decide_True.
Qed.

Lemma malformed_json_folded_as_failure_witness :
  ∃ st', harvest_fold args_chat bad_future stats0 = (st', inr tt) ∧
         failures st' = 1 ∧
         counter_get (error_samples st') "Expecting value" = 1.
Proof.
  destruct (malformed_json_folded_as_failure args_chat
              (mkState Running stats0 [] [bad_future]) 0 bad_future
              (mkResponse 200 (inl "Expecting value: line 1 column 1 (char 0)"))
              (millis 0) (millis 10) _
              eq_refl eq_refl eq_refl eq_refl eq_refl eq_refl)
    as (st' & Hfold & _ & Hfail & _ & Hkey & _).
  exists st'. split; [exact Hfold|]. split; [exact Hfail | exact Hkey].
Defined.

(** Such an outcome is thus counted twice: a run of two requests, the
    first of which is harvested with a body that does not decode, ends
    with two attempts, two successes and one failure. *)
Lemma malformed_json_counted_twice :
  ∃ s, exec args_chat (run_two bad_json) init = Some s ∧
       phase s = Done false ∧
       attempts (stats s) = 2 ∧
       successes (stats s) = 2 ∧
       failures (stats s) = 1.
Proof. eexists. split; [vm_compute; reflexivity|]. repeat split. Qed.

(** ** The success rate *)

(** C6: the success rate is [successes / attempts * 100] when [attempts]
    is positive and [0.0] when it is 0; no [ZeroDivisionError] arises, and
    the report carries that value. *)
Theorem success_rate_defined (st : Stats) :
  success_rate (successes st) (attempts st) =
    inr (if decide (0 < attempts st)
         then PyFloat.mul
                (PyFloat.div (PyFloat.of_int (Z.of_nat (successes st)))
                             (PyFloat.of_int (Z.of_nat (attempts st))))
                PyFloat.f100
         else PyFloat.f0) ∧
  (attempts st = 0 →
   success_rate (successes st) (attempts st) = inr PyFloat.f0) ∧
  ∀ rep, report_of st = inr rep →
         success_rate (successes st) (attempts st) = inr (rep_success_rate rep).
Proof.
  assert (Hrate : success_rate (successes st) (attempts st) =
    inr (if decide (0 < attempts st)
         then PyFloat.mul
                (PyFloat.div (PyFloat.of_int (Z.of_nat (successes st)))
                             (PyFloat.of_int (Z.of_nat (attempts st))))
                PyFloat.f100
         else PyFloat.f0)).
  { unfold success_rate, truediv. case_decide as Hpos.
    - rewrite (proj2 (Z.ltb_lt _ _)) by lia.
      rewrite (proj2 (Z.eqb_neq _ _)) by lia. done.
    - rewrite (proj2 (Z.ltb_ge _ _)) by lia. done. }
  split; [exact Hrate|]. split.
  - intros H0. rewrite Hrate, H0. done.
  - intros rep. unfold report_of. rewrite Hrate.
    destruct (p95_lat _); [done|]. intros [= <-]. done.
Qed.

Lemma success_rate_defined_witness :
  success_rate 0 0 = inr PyFloat.f0 ∧
  success_rate 1 2 = inr (PyFloat.of_int 50).
Proof.
  split.
  - apply (success_rate_defined stats0). reflexivity.
  - rewrite (proj1 (success_rate_defined (mkStats 2 1 1 ∅ [] ∅))).
    vm_compute. reflexivity.
Defined.

(** ** The word-count hint of the chat request builder *)

Lemma randint_outcomes a b :
  (a ≤ b)%Z →
  ∃ l, randint a b = inr l ∧ NoDup l ∧
       (∀ n, n ∈ l ↔ (a ≤ n ≤ b)%Z) ∧
       Z.of_nat (length l) = (b - a + 1)%Z.
Proof.
  intros Hab. unfold randint. rewrite (proj2 (Z.ltb_ge _ _)) by lia.
  eexists. split; [reflexivity|]. split; [|split].
  - assert (Inj eq eq (λ i : nat, (a + Z.of_nat i)%Z)) by (intros i j; lia).
    apply (NoDup_fmap_2 _), NoDup_seq.
  - intros n. rewrite list_elem_of_fmap. setoid_rewrite elem_of_seq. split.
    + intros (i & -> & Hi). lia.
    + intros Hn. exists (Z.to_nat (n - a)). lia.
  - rewrite length_map, length_seq. lia.
Qed.

Lemma draw_outcomes {A} (l : list A) r :
  l ≠ [] → ∃ a, draw (inr l) r = inr a ∧ a ∈ l.
Proof.
  intros Hl. unfold draw.
  assert (Hlt : r `mod` length l < length l).
  { apply Nat.mod_upper_bound. by destruct l. }
  destruct (lookup_lt_is_Some_2 _ _ Hlt) as [a Ha].
  exists a. rewrite Ha. split; [done|]. by eapply list_elem_of_lookup_2.
Qed.

Lemma draw_reaches {A} (l : list A) a :
  a ∈ l → ∃ r, draw (inr l) r = inr a.
Proof.
  intros (i & Hi)%list_elem_of_lookup_1. exists i. unfold draw.
  rewrite Nat.mod_small by (by eapply lookup_lt_Some). by rewrite Hi.
Qed.

Lemma want_outcomes_interval args :
  ∃ l, want_outcomes args = inr l ∧ l ≠ [] ∧ NoDup l ∧
       (∀ n, n ∈ l ↔
          (min_words args ≤ n ≤ Z.max (min_words args) (max_words args))%Z) ∧
       Z.of_nat (length l) =
         (Z.max (min_words args) (max_words args) - min_words args + 1)%Z.
Proof.
  destruct (randint_outcomes (min_words args)
              (Z.max (min_words args) (max_words args)))
    as (l & Hl & Hnd & Hin & Hlen); [lia|].
  exists l. repeat split; try done; try by apply Hin.
  intros ->. simpl in Hlen. lia.
Qed.

Lemma draw_choice_nonempty {A} (l : list A) r :
  l ≠ [] → ∃ a, draw (choice l) r = inr a ∧ a ∈ l.
Proof.
  intros Hl. destruct l as [|a0 l]; [done|]. unfold choice, draw.
  assert (Hlt : r `mod` length (a0 :: l) < length (a0 :: l))
    by (apply Nat.mod_upper_bound; done).
  apply lookup_lt_is_Some_2 in Hlt as [a Ha]. rewrite Ha.
  exists a. split; [done|]. by eapply list_elem_of_lookup_2.
Qed.

Lemma draw_lookup {A} (l : list A) r a :
  draw (inr l) r = inr a → l !! (r `mod` length l) = Some a.
Proof. unfold draw. destruct (l !! _); [by intros [= ->]|done]. Qed.

(** C8: the word count [N] of every chat request built is drawn
    uniformly from [[min_words, max(min_words, max_words)]]:
    [random.randint] is called on these bounds, never fails, and its
    equiprobable outcomes are the integers of that interval, each once;
    the hint of every request built carries the outcome that the draw
    selects, every integer of the interval is the [N] of some request, and
    every [N] is at least [min_words]. With [min_words = 10] and
    [max_words = 5] the only outcome is 10. *)
Theorem want_uniform args :
  let lo := min_words args in
  let hi := Z.max (min_words args) (max_words args) in
  ∃ l, want_outcomes args = inr l ∧
       NoDup l ∧
       (∀ n, n ∈ l ↔ (lo ≤ n ≤ hi)%Z) ∧
       Z.of_nat (length l) = (hi - lo + 1)%Z ∧
       (∀ r1 r2 req,
          mode args = chat → build_request args r1 r2 = inr req →
          ∃ base n,
            base ∈ prompts args ∧
            l !! (r2 `mod` length l) = Some n ∧ (lo ≤ n ≤ hi)%Z ∧
            json_body req =
              Some (chat_body args
                      ((if ends_with_terminal base then base
                        else base +:+ ".") +:+
                       " Answer in about " +:+ pretty n +:+ " words."))) ∧
       (∀ n r1,
          mode args = chat → prompts args ≠ [] → (lo ≤ n ≤ hi)%Z →
          ∃ r2 req base,
            build_request args r1 r2 = inr req ∧
            json_body req =
              Some (chat_body args
                      ((if ends_with_terminal base then base
                        else base +:+ ".") +:+
                       " Answer in about " +:+ pretty n +:+ " words."))) ∧
       (min_words args = 10%Z → max_words args = 5%Z → l = [10%Z]).
Proof.
  intros lo hi.
  destruct (want_outcomes_interval args) as (l & Hl & Hne & Hnd & Hin & Hlen).
  exists l. repeat split; try done; try by apply Hin.
  - intros r1 r2 req Hmode. unfold build_request. rewrite Hmode, Hl.
    destruct (decide (prompts args = [])) as [Hp|Hp]; [by rewrite Hp|].
    destruct (draw_choice_nonempty _ r1 Hp) as (base & -> & Hbase).
    destruct (draw_outcomes l r2 Hne) as (n & Hn & Hnl). rewrite Hn.
    intros [= <-]. exists base, n. split; [done|].
    split; [by apply draw_lookup|]. split; [by apply Hin|done].
  - intros n r1 Hmode Hp Hn. unfold build_request. rewrite Hmode, Hl.
    destruct (draw_choice_nonempty _ r1 Hp) as (base & -> & Hbase).
    destruct (draw_reaches l n) as [r2 Hr2]; [by apply Hin|].
    exists r2. rewrite Hr2. eexists. exists base. split; reflexivity.
  - intros Hmin Hmax. unfold want_outcomes, randint in Hl.
    rewrite Hmin, Hmax in Hl. simpl in Hl. by injection Hl as <-.
Qed.

Lemma want_uniform_witness :
  want_outcomes args_inverted = inr [10%Z] ∧
  ∃ req, build_request args_inverted 0 0 = inr req ∧
         json_body req =
           Some [("prompt",
                  "Explain OpenTelemetry in one sentence. Answer in about 10 words.")].
Proof.
  destruct (want_uniform args_inverted) as (l & Hl & _ & _ & _ & Hreq & _ & H10).
  assert (l = [10%Z]) as -> by (apply H10; reflexivity).
  split; [exact Hl|].
  eexists. split; [vm_compute; reflexivity|].
  destruct (Hreq 0 0 _ eq_refl ltac:(vm_compute; reflexivity))
    as (base & n & Hbase & Hn & _ & Hbody).
  apply list_elem_of_singleton in Hbase as ->.
  injection Hn as <-. exact Hbody.
Defined.

(** What the chat branch of [submit_one] writes into the prompt. *)
Lemma build_request_chat args r1 r2 req :
  mode args = chat →
  build_request args r1 r2 = inr req →
  ∃ base want text,
    draw (want_outcomes args) r2 = inr want ∧
    (min_words args ≤ want ≤ Z.max (min_words args) (max_words args))%Z ∧
    text = (if ends_with_terminal base then base else base +:+ ".") +:+
           " Answer in about " +:+ pretty want +:+ " words." ∧
    method req = "POST" ∧
    ∃ rest, json_body req = Some (("prompt", text) :: rest).
Proof.
  intros Hmode. unfold build_request. rewrite Hmode.
  destruct (draw (choice _) r1) as [|base]; [done|].
  destruct (draw (want_outcomes _) r2) as [|want] eqn:Hw; [done|].
  intros [= <-]. exists base, want. eexists. split; [done|]. split.
  - destruct (want_outcomes_interval args) as (l & Hl & Hne & _ & Hin & _).
    rewrite Hl in Hw. destruct (draw_outcomes l r2 Hne) as (n & Hn & Hnl).
    apply Hin. congruence.
  - split; [reflexivity|]. split; [done|]. simpl. eauto.
Qed.

(** ** Binary64 arithmetic *)

(** The mantissa and exponent given for [0.95] are those of the double
    nearest to 95/100; 40 ms is the double nearest to 0.04. *)
Lemma literal_values :
  PyFloat.f0_95 = PyFloat.lit 95 100 ∧
  millis 40 = S754_finite false 5764607523034235 (-57) ∧
  PyFloat.f100 = S754_finite false 7036874417766400 (-46).
Proof. repeat split; vm_compute; reflexivity. Qed.

Lemma digits2_pos_bounds (p : positive) :
  (2 ^ (Z.pos (digits2_pos p) - 1) ≤ Z.pos p < 2 ^ Z.pos (digits2_pos p))%Z.
Proof.
  induction p as [p IH|p IH|]; simpl digits2_pos; [| |simpl; lia];
    rewrite Pos2Z.inj_succ;
    replace (Z.succ (Z.pos (digits2_pos p)) - 1)%Z
      with (Z.succ (Z.pos (digits2_pos p) - 1))%Z by lia;
    rewrite !Z.pow_succ_r by lia; lia.
Qed.

Lemma digits2_pos_unique (p : positive) (d : Z) :
  (2 ^ (d - 1) ≤ Z.pos p < 2 ^ d)%Z → Z.pos (digits2_pos p) = d.
Proof.
  intros [Hlo Hhi]. pose proof (digits2_pos_bounds p) as [Hlo' Hhi'].
  destruct (Z.lt_trichotomy (Z.pos (digits2_pos p)) d) as [Hlt|[Heq|Hgt]];
    [exfalso|done|exfalso].
  - assert (2 ^ Z.pos (digits2_pos p) ≤ 2 ^ (d - 1))%Z
      by (apply Z.pow_le_mono_r; lia). lia.
  - assert (0 ≤ d)%Z.
    { destruct (Z.lt_ge_cases d 0) as [Hneg|]; [|done].
      rewrite (Z.pow_neg_r 2 d) in Hhi by done. lia. }
    assert (2 ^ d ≤ 2 ^ (Z.pos (digits2_pos p) - 1))%Z
      by (apply Z.pow_le_mono_r; lia). lia.
Qed.

Lemma iter_xO_pow2 (m n : positive) :
  Z.pos (Pos.iter xO m n) = (Z.pos m * 2 ^ Z.pos n)%Z.
Proof.
  induction n as [|n IH] using Pos.peano_ind.
  - simpl. lia.
  - rewrite Pos.iter_succ, Pos2Z.inj_succ, Z.pow_succ_r by lia.
    rewrite Pos2Z.inj_xO, IH. lia.
Qed.

Lemma iter_pos_iter {A} (f : A → A) (n : positive) (x : A) :
  SpecFloat.iter_pos f n x = Pos.iter f x n.
Proof.
  revert x. induction n as [n IH|n IH|]; intros x; simpl; [| |done].
  - rewrite !IH. by rewrite <- !Pos.iter_swap.
  - by rewrite !IH.
Qed.

Lemma shr_1_nonneg (m : Z) (r s : bool) :
  (0 ≤ m)%Z →
  shr_1 (Build_shr_record m r s) = Build_shr_record (m / 2) (Z.odd m) (r || s).
Proof.
  intros Hm. destruct m as [|p|p]; [done| |lia].
  destruct p as [p|p|]; simpl shr_1; f_equal.
  - rewrite Pos2Z.inj_xI. apply Z.div_unique with 1%Z; lia.
  - rewrite Pos2Z.inj_xO. apply Z.div_unique with 0%Z; lia.
Qed.

(** [n] steps of [shr_1]: the quotient, the round bit and the sticky bit. *)
Lemma shr_iter (n : positive) (m : Z) :
  (0 ≤ m)%Z →
  Pos.iter shr_1 (Build_shr_record m false false) n =
    Build_shr_record (m / 2 ^ Z.pos n)
      (Z.odd (m / 2 ^ (Z.pos n - 1)))
      (negb (m `mod` 2 ^ (Z.pos n - 1) =? 0)%Z).
Proof.
  intros Hm. induction n as [|n IH] using Pos.peano_ind.
  - change (Pos.iter shr_1 ?x 1) with (shr_1 x).
    rewrite shr_1_nonneg by done.
    change (Z.pos 1 - 1)%Z with 0%Z. rewrite Z.pow_0_r, Z.div_1_r, Z.mod_1_r.
    done.
  - rewrite Pos.iter_succ, IH, shr_1_nonneg by (apply Z.div_pos; lia).
    rewrite Pos2Z.inj_succ.
    replace (Z.succ (Z.pos n) - 1)%Z with (Z.pos n) by lia.
    rewrite Z.pow_succ_r by lia.
    f_equal.
    + rewrite Z.div_div by lia. f_equal. lia.
    + replace (Z.pos n) with (Z.succ (Z.pos n - 1)) at 3 by lia.
      rewrite Z.pow_succ_r by lia.
      rewrite (Z.mul_comm 2), Z.rem_mul_r by lia.
      set (lo := (m `mod` 2 ^ (Z.pos n - 1))%Z).
      set (hi := (m / 2 ^ (Z.pos n - 1))%Z).
      assert (0 ≤ lo < 2 ^ (Z.pos n - 1))%Z by (apply Z.mod_pos_bound; lia).
      rewrite Zmod_odd.
      destruct (Z.odd hi); destruct (Z.eqb_spec lo 0); simpl;
        symmetry; try (apply Z.eqb_neq); try (apply Z.eqb_eq); lia.
Qed.

Lemma shr_fexp_exact (m : positive) (e : Z) :
  Z.pos (digits2_pos m) = 53%Z → (-1074 ≤ e)%Z →
  shr_fexp 53 1024 (Z.pos m) e loc_Exact =
    (Build_shr_record (Z.pos m) false false, e).
Proof.
  intros Hd He. unfold shr_fexp, Zdigits2, fexp, emin. rewrite Hd.
  replace (Z.max (53 + e - 53) (3 - 1024 - 53) - e)%Z with 0%Z by lia.
  done.
Qed.

Lemma shr_fexp_shift (m s : positive) (e : Z) :
  Z.pos (digits2_pos m) = (53 + Z.pos s)%Z → (-1074 ≤ e + Z.pos s)%Z →
  shr_fexp 53 1024 (Z.pos m) e loc_Exact =
    (Build_shr_record (Z.pos m / 2 ^ Z.pos s)
       (Z.odd (Z.pos m / 2 ^ (Z.pos s - 1)))
       (negb (Z.pos m `mod` 2 ^ (Z.pos s - 1) =? 0)%Z),
     (e + Z.pos s)%Z).
Proof.
  intros Hd He. unfold shr_fexp, Zdigits2, fexp, emin. rewrite Hd.
  replace (Z.max (53 + Z.pos s + e - 53) (3 - 1024 - 53) - e)%Z
    with (Z.pos s) by lia.
  unfold shr, shr_record_of_loc.
  by rewrite iter_pos_iter, shr_iter.
Qed.

(** Rounding to nearest even, read on the remainder of the shift. *)
Lemma round_nearest_even_rem (m : Z) (s : positive) :
  (0 ≤ m)%Z →
  let q := (m / 2 ^ Z.pos s)%Z in
  let rem := (m `mod` 2 ^ Z.pos s)%Z in
  let q' := round_nearest_even q
              (loc_of_shr_record
                 (Build_shr_record q (Z.odd (m / 2 ^ (Z.pos s - 1)))
                    (negb (m `mod` 2 ^ (Z.pos s - 1) =? 0)%Z))) in
  (q ≤ q' ≤ q + 1)%Z ∧
  (2 * rem < 2 ^ Z.pos s → q' = q)%Z ∧
  (2 ^ Z.pos s < 2 * rem → q' = q + 1)%Z.
Proof.
  intros Hm q rem q'.
  assert (Hpow : (2 ^ Z.pos s = 2 * 2 ^ (Z.pos s - 1))%Z).
  { rewrite <- Z.pow_succ_r by lia. f_equal. lia. }
  assert (Hhalf : (0 < 2 ^ (Z.pos s - 1))%Z) by (apply Z.pow_pos_nonneg; lia).
  assert (Hrem : (rem = m `mod` 2 ^ (Z.pos s - 1) +
                   2 ^ (Z.pos s - 1) * ((m / 2 ^ (Z.pos s - 1)) `mod` 2))%Z).
  { unfold rem. rewrite Hpow, (Z.mul_comm 2). apply Z.rem_mul_r; lia. }
  rewrite Zmod_odd in Hrem.
  pose proof (Z.mod_pos_bound m (2 ^ (Z.pos s - 1)) Hhalf) as Hlo.
  subst q'. simpl loc_of_shr_record.
  destruct (Z.odd (m / 2 ^ (Z.pos s - 1)));
    destruct (Z.eqb_spec (m `mod` 2 ^ (Z.pos s - 1)) 0) as [E|E];
    simpl; try (destruct (Z.even q)); lia.
Qed.

Lemma round_aux_exact (sx : bool) (m : positive) (e : Z) :
  Z.pos (digits2_pos m) = 53%Z → (-1074 ≤ e ≤ 971)%Z →
  binary_round_aux 53 1024 sx (Z.pos m) e loc_Exact = S754_finite sx m e.
Proof.
  intros Hd He. unfold binary_round_aux.
  rewrite shr_fexp_exact by (done || lia). simpl.
  rewrite shr_fexp_exact by (done || lia). simpl.
  by rewrite (proj2 (Z.leb_le _ _)) by lia.
Qed.

(** The rounding of a mantissa of [53 + s] bits: the rounded quotient
    [q'] at exponent [e + s], renormalised when [q'] reaches [2^53]. *)
Lemma round_aux_shift (m s : positive) (e : Z) :
  Z.pos (digits2_pos m) = (53 + Z.pos s)%Z → (-1074 ≤ e + Z.pos s ≤ 970)%Z →
  let q' := round_nearest_even (Z.pos m / 2 ^ Z.pos s)
              (loc_of_shr_record
                 (Build_shr_record (Z.pos m / 2 ^ Z.pos s)
                    (Z.odd (Z.pos m / 2 ^ (Z.pos s - 1)))
                    (negb (Z.pos m `mod` 2 ^ (Z.pos s - 1) =? 0)%Z))) in
  ∃ m' e',
    binary_round_aux 53 1024 false (Z.pos m) e loc_Exact =
      S754_finite false m' e' ∧
    ((e' = e + Z.pos s ∧ Z.pos m' = q')%Z ∨
     (e' = e + Z.pos s + 1 ∧ Z.pos m' * 2 = q')%Z).
Proof.
  intros Hd He q'.
  pose proof (digits2_pos_bounds m) as [Hlo Hhi]. rewrite Hd in Hlo, Hhi.
  assert (Hs : (0 < 2 ^ Z.pos s)%Z) by (apply Z.pow_pos_nonneg; lia).
  replace (53 + Z.pos s - 1)%Z with (52 + Z.pos s)%Z in Hlo by lia.
  rewrite Z.pow_add_r in Hlo, Hhi by lia.
  assert (Hq : (2 ^ 52 ≤ Z.pos m / 2 ^ Z.pos s < 2 ^ 53)%Z).
  { split.
    - apply Z.div_le_lower_bound; lia.
    - apply Z.div_lt_upper_bound; lia. }
  destruct (round_nearest_even_rem (Z.pos m) s) as (Hq' & _); [lia|].
  fold q' in Hq'.
  unfold binary_round_aux. rewrite (shr_fexp_shift m s e) by (done || lia).
  cbv beta iota zeta. simpl shr_m. fold q'.
  destruct q' as [|pq|pq] eqn:Eq'; [lia| |lia].
  destruct (Z.eq_dec (Z.pos pq) (2 ^ 53)%Z) as [Htop|Htop].
  - assert (pq = 9007199254740992%positive) as -> by lia.
    rewrite (shr_fexp_shift _ 1) by (done || lia).
    change (Z.pos 9007199254740992 / 2 ^ 1)%Z with (Z.pos 4503599627370496).
    cbv beta iota zeta. simpl shr_m.
    rewrite (proj2 (Z.leb_le _ _)) by lia.
    do 2 eexists. split; [reflexivity|]. right. lia.
  - rewrite shr_fexp_exact by (try apply digits2_pos_unique; lia).
    cbv beta iota zeta. simpl shr_m.
    rewrite (proj2 (Z.leb_le _ _)) by lia.
    do 2 eexists. split; [reflexivity|]. left. lia.
Qed.

(** [float(k)] for [0 < k < 2^53] is exact: the mantissa is [k] shifted
    to 53 bits. *)
Lemma of_int_pos (k : positive) :
  (Z.pos k < 2 ^ 53)%Z →
  ∃ mk, PyFloat.of_int (Z.pos k) =
          S754_finite false mk (Z.pos (digits2_pos k) - 53) ∧
        Z.pos (digits2_pos mk) = 53%Z ∧
        (Z.pos mk = Z.pos k * 2 ^ (53 - Z.pos (digits2_pos k)))%Z.
Proof.
  intros Hk. pose proof (digits2_pos_bounds k) as [Hlo Hhi].
  set (d := Z.pos (digits2_pos k)) in *.
  assert (Hd : (1 ≤ d ≤ 53)%Z).
  { split; [lia|]. destruct (Z.le_gt_cases d 53) as [|Hgt]; [done|].
    assert (2 ^ 53 ≤ 2 ^ (d - 1))%Z by (apply Z.pow_le_mono_r; lia). lia. }
  unfold PyFloat.of_int, binary_normalize, binary_round, shl_align.
  unfold fexp, emin, PyFloat.prec, PyFloat.emax. fold d.
  replace (Z.max (d + 0 - 53) (3 - 1024 - 53) - 0)%Z with (d - 53)%Z by lia.
  replace (Z.max (d + 0 - 53) (3 - 1024 - 53))%Z with (d - 53)%Z by lia.
  destruct (d - 53)%Z as [|p|p] eqn:Ed; [|lia|].
  - exists k. rewrite round_aux_exact by (fold d; lia).
    split; [done|]. split; [fold d; lia|].
    replace (53 - d)%Z with 0%Z by lia. lia.
  - exists (Pos.iter xO k p).
    assert (Hmk : (Z.pos (Pos.iter xO k p) = Z.pos k * 2 ^ (53 - d))%Z).
    { rewrite iter_xO_pow2. do 2 f_equal. lia. }
    assert (Hdig : Z.pos (digits2_pos (Pos.iter xO k p)) = 53%Z).
    { apply digits2_pos_unique. rewrite Hmk. split.
      - replace (53 - 1)%Z with ((d - 1) + (53 - d))%Z by lia.
        rewrite Z.pow_add_r by lia. apply Z.mul_le_mono_nonneg_r; lia.
      - replace 53%Z with (d + (53 - d))%Z at 2 by lia.
        rewrite Z.pow_add_r by lia. apply Z.mul_lt_mono_pos_r; lia. }
    rewrite round_aux_exact by (done || lia). done.
Qed.

(** The arithmetic of the nearest rank: [q'] is the product of the
    mantissas of [0.95] and of [k], shifted by [s] bits and rounded, and
    [C * u] is the weight of its last bit. *)
Lemma nearest_rank_core (s u k C mk q' : Z) :
  (s = 53 ∧ u = 1 ∨ s = 52 ∧ u = 2)%Z →
  (1 ≤ k)%Z → (32 ≤ C)%Z → (mk = k * C)%Z →
  (2 ^ 52 ≤ mk < 2 ^ 53)%Z →
  (2 ^ (52 + s) ≤ 8556839292003942 * mk < 2 ^ (53 + s))%Z →
  let q := (8556839292003942 * mk / 2 ^ s)%Z in
  let rem := ((8556839292003942 * mk) `mod` 2 ^ s)%Z in
  (q ≤ q' ≤ q + 1)%Z →
  (2 * rem < 2 ^ s → q' = q)%Z →
  (2 ^ s < 2 * rem → q' = q + 1)%Z →
  (q' / (C * u) = 95 * k / 100)%Z.
Proof.
  intros Hs Hk HC Hmk Hmkb HM q rem Hq' Hdown Hup.
  set (a := (95 * k / 100)%Z).
  assert (Ha : (20 * a ≤ 19 * k < 20 * a + 20)%Z).
  { unfold a. clear. Z.to_euclidean_division_equations. lia. }
  set (A := (a * C)%Z).
  assert (HA1 : (20 * A ≤ 19 * mk)%Z) by (clear - Ha Hmk HC; subst A mk; nia).
  assert (HA2 : (19 * mk ≤ 20 * A + 19 * C)%Z)
    by (clear - Ha Hmk HC; subst A mk; nia).
  assert (HA3 : (19 * k = 20 * a ∨ 20 * A + C ≤ 19 * mk)%Z)
    by (clear - Ha Hmk HC; subst A mk; nia).
  assert (HA4 : (19 * k = 20 * a → 19 * mk = 20 * A)%Z)
    by (clear - Ha Hmk HC; subst A mk; nia).
  symmetry. apply Z.div_unique with (q' - C * u * a)%Z; [|lia].
  left. replace (C * u * a)%Z with (A * u)%Z by (unfold A; ring).
  clearbody A a. clear Hmk.
  destruct Hs as [[-> ->]|[-> ->]]; subst q rem.
  - change (2 ^ 53)%Z with 9007199254740992%Z in *.
    change (2 ^ 52)%Z with 4503599627370496%Z in *.
    change (2 ^ (52 + 53))%Z with 40564819207303340847894502572032%Z in *.
    change (2 ^ (53 + 53))%Z with 81129638414606681695789005144064%Z in *.
    destruct HA3 as [H0|H1]; [specialize (HA4 H0)|];
      Z.to_euclidean_division_equations; lia.
  - change (2 ^ 53)%Z with 9007199254740992%Z in *.
    change (2 ^ 52)%Z with 4503599627370496%Z in *.
    change (2 ^ (52 + 52))%Z with 20282409603651670423947251286016%Z in *.
    change (2 ^ (53 + 52))%Z with 40564819207303340847894502572032%Z in *.
    destruct HA3 as [H0|H1]; [specialize (HA4 H0)|];
      Z.to_euclidean_division_equations; lia.
Qed.

(** [int(0.95 * k)] is [floor(0.95 * k)] for every [0 < k < 2^48]. *)
Lemma trunc_mul_0_95 (k : positive) :
  (Z.pos k < 2 ^ 48)%Z →
  PyFloat.trunc (PyFloat.mul PyFloat.f0_95 (PyFloat.of_int (Z.pos k))) =
    Some (95 * Z.pos k / 100)%Z.
Proof.
  intros Hk.
  destruct (of_int_pos k) as (mk & -> & Hdig & Hmk); [lia|].
  pose proof (digits2_pos_bounds k) as [Hlo Hhi].
  pose proof (digits2_pos_bounds mk) as Hmkb. rewrite Hdig in Hmkb.
  set (d := Z.pos (digits2_pos k)) in *.
  assert (Hd : (1 ≤ d ≤ 48)%Z).
  { split; [lia|]. destruct (Z.le_gt_cases d 48) as [|Hgt]; [done|].
    assert (2 ^ 48 ≤ 2 ^ (d - 1))%Z by (apply Z.pow_le_mono_r; lia). lia. }
  set (C := (2 ^ (53 - d))%Z) in *.
  assert (HC : (32 ≤ C)%Z).
  { change 32%Z with (2 ^ 5)%Z. apply Z.pow_le_mono_r; lia. }
  unfold PyFloat.mul, SFmul, PyFloat.f0_95, PyFloat.prec, PyFloat.emax.
  simpl xorb.
  set (M := (8556839292003942 * mk)%positive).
  assert (HM : Z.pos M = (8556839292003942 * Z.pos mk)%Z) by done.
  change (2 ^ (53 - 1))%Z with 4503599627370496%Z in Hmkb.
  change (2 ^ 53)%Z with 9007199254740992%Z in Hmkb.
  assert (Hcase : ∃ s u : positive,
            (Z.pos s = 53 ∧ Z.pos u = 1 ∨ Z.pos s = 52 ∧ Z.pos u = 2)%Z ∧
            (2 ^ (52 + Z.pos s) ≤ Z.pos M < 2 ^ (53 + Z.pos s))%Z).
  { destruct (Z.lt_ge_cases (Z.pos M) (2 ^ 105)) as [Hlt|Hge].
    - exists 52%positive, 2%positive. split; [right; done|].
      change (2 ^ (52 + 52))%Z with 20282409603651670423947251286016%Z.
      change (2 ^ 105)%Z with 40564819207303340847894502572032%Z in Hlt.
      split; [lia|done].
    - exists 53%positive, 1%positive. split; [left; done|].
      change (2 ^ (53 + 53))%Z with 81129638414606681695789005144064%Z.
      split; [done|lia]. }
  destruct Hcase as (s & u & Hsu & HMb).
  assert (HD : Z.pos (digits2_pos M) = (53 + Z.pos s)%Z).
  { apply digits2_pos_unique.
    replace (53 + Z.pos s - 1)%Z with (52 + Z.pos s)%Z by lia. done. }
  destruct (round_aux_shift M s (-53 + (d - 53))) as (m' & e' & -> & Hres);
    [done|lia|].
  destruct (round_nearest_even_rem (Z.pos M) s) as (Hq' & Hdown & Hup); [lia|].
  set (q' := round_nearest_even _ _) in *.
  assert (Hcore : (q' / (C * Z.pos u) = 95 * Z.pos k / 100)%Z).
  { rewrite HM in *.
    apply (nearest_rank_core (Z.pos s) (Z.pos u) (Z.pos k) C (Z.pos mk) q');
      try done; lia. }
  unfold PyFloat.trunc. simpl cond_Zopp. f_equal. rewrite <- Hcore.
  assert (HCu : (C * Z.pos u = 2 ^ (106 - d - Z.pos s))%Z).
  { unfold C. destruct Hsu as [[-> ->]|[-> ->]].
    - rewrite Z.mul_1_r. f_equal. lia.
    - replace (106 - d - 52)%Z with (Z.succ (53 - d)) by lia.
      rewrite Z.pow_succ_r by lia. lia. }
  rewrite HCu.
  destruct Hres as [[-> Hm']|[-> Hm']].
  - rewrite Hm', Z.shiftl_div_pow2 by lia. do 2 f_equal. lia.
  - rewrite <- Hm', Z.shiftl_div_pow2 by lia.
    replace (106 - d - Z.pos s)%Z
      with (Z.succ (- (-53 + (d - 53) + Z.pos s + 1)))%Z by lia.
    rewrite Z.pow_succ_r by lia.
    rewrite (Z.mul_comm 2), Z.div_mul_cancel_r; lia.
Qed.

(** ** Sorting floats *)

Lemma SFcompare_antisym (x y : float) (c : comparison) :
  SFcompare x y = Some c → SFcompare y x = Some (CompOpp c).
Proof.
  destruct x as [sx|sx| |sx mx ex], y as [sy|sy| |sy my ey]; simpl;
    try discriminate; try (destruct sx); try (destruct sy);
    intros [= <-]; try done;
    change (Pos.compare_cont Eq) with Pos.compare;
    rewrite (Z.compare_antisym ex ey), (Pos.compare_antisym mx my);
    by destruct (ex ?= ey)%Z, (mx ?= my)%positive.
Qed.

Lemma SFleb_trans (x y z : float) :
  SFleb x y = true → SFleb y z = true → SFleb x z = true.
Proof.
  unfold SFleb.
  destruct x as [sx|sx| |sx mx ex], y as [sy|sy| |sy my ey],
           z as [sz|sz| |sz mz ez]; simpl;
    try discriminate; try (destruct sx); try (destruct sy); try (destruct sz);
    try done;
    change (Pos.compare_cont Eq) with Pos.compare;
    destruct (Z.compare_spec ex ey), (Z.compare_spec ey ez),
             (Z.compare_spec ex ez); try done; try lia;
    subst;
    destruct (Pos.compare_spec mx my), (Pos.compare_spec my mz),
             (Pos.compare_spec mx mz); simpl; try done; try lia.
Qed.

Lemma ltb_asym (x y : float) :
  PyFloat.ltb x y = true → PyFloat.ltb y x = false.
Proof.
  unfold PyFloat.ltb, SFltb.
  destruct (SFcompare x y) as [[]|] eqn:E; try done.
  by rewrite (SFcompare_antisym _ _ _ E).
Qed.

Lemma not_above_leb (x y : float) :
  PyFloat.is_nan x = false → PyFloat.is_nan y = false →
  not_above x y ↔ PyFloat.leb x y = true.
Proof.
  intros Hx Hy. unfold not_above, PyFloat.ltb, PyFloat.leb, SFltb, SFleb.
  destruct (SFcompare x y) as [c|] eqn:E.
  - rewrite (SFcompare_antisym _ _ _ E). by destruct c.
  - by destruct x, y.
Qed.

Lemma insert_sorted_Permutation (x : float) (l : list float) :
  insert_sorted x l ≡ₚ x :: l.
Proof.
  induction l as [|y l IH]; simpl; [done|].
  destruct (PyFloat.ltb y x); [|done]. rewrite IH. apply perm_swap.
Qed.

Lemma sorted_Permutation (l : list float) : sorted l ≡ₚ l.
Proof.
  induction l as [|x l IH]; simpl; [done|].
  by rewrite insert_sorted_Permutation, IH.
Qed.

Lemma length_sorted (l : list float) : length (sorted l) = length l.
Proof. by rewrite sorted_Permutation. Qed.

Lemma insert_sorted_Sorted (x : float) (l : list float) :
  Sorted not_above l → Sorted not_above (insert_sorted x l).
Proof.
  induction l as [|y l IH]; simpl; intros Hl.
  - by repeat constructor.
  - destruct (PyFloat.ltb y x) eqn:E.
    + apply Sorted_inv in Hl as [Hl Hhd]. constructor; [by apply IH|].
      destruct l as [|z l]; simpl.
      * constructor. unfold not_above. by apply ltb_asym.
      * destruct (PyFloat.ltb z x); constructor;
          [by inversion Hhd | unfold not_above; by apply ltb_asym].
    + constructor; [done|]. by constructor.
Qed.

(** [sorted] gives an ascending arrangement of its argument. *)
Lemma sorted_Sorted (l : list float) : Sorted not_above (sorted l).
Proof.
  induction l as [|x l IH]; simpl; [constructor|].
  by apply insert_sorted_Sorted.
Qed.

(** Without NaN the arrangement is ascending for [<=] between any two
    positions. *)
Lemma sorted_StronglySorted (l : list float) :
  Forall (λ x, PyFloat.is_nan x = false) l →
  StronglySorted (λ x y, PyFloat.leb x y = true) (sorted l).
Proof.
  intros Hl.
  assert (Hs : Forall (λ x, PyFloat.is_nan x = false) (sorted l))
    by (by rewrite sorted_Permutation).
  pose proof (sorted_Sorted l) as HS. revert Hs HS.
  generalize (sorted l). clear. intros l. induction l as [|x l IH].
  - constructor.
  - intros [Hx Hl]%Forall_cons HS. apply Sorted_inv in HS as [HS Hhd].
    specialize (IH Hl HS). constructor; [done|].
    destruct IH as [|y l IHl Hyl]; [constructor|].
    apply Forall_cons in Hl as [Hy Hl].
    assert (Hxy : PyFloat.leb x y = true)
      by (apply not_above_leb; [done..|by inversion Hhd]).
    constructor; [done|].
    eapply Forall_impl; [exact Hyl|]. simpl. intros z Hyz.
    by apply (SFleb_trans x y z).
Qed.

(** An ascending sequence of two runs is left as it is. *)
Lemma sorted_two_runs (a b : float) (n1 n2 : nat) :
  PyFloat.ltb a a = false → PyFloat.ltb b b = false →
  PyFloat.ltb b a = false →
  sorted (replicate n1 a ++ replicate n2 b) = replicate n1 a ++ replicate n2 b.
Proof.
  intros Haa Hbb Hba. induction n1 as [|n1 IH]; simpl.
  - induction n2 as [|n2 IH]; simpl; [done|]. rewrite IH.
    destruct n2; simpl; [done|]. by rewrite Hbb.
  - rewrite IH. destruct n1; simpl; [|by rewrite Haa].
    destruct n2; simpl; [done|]. by rewrite Hba.
Qed.

(** ** The 95th percentile *)

Lemma nearest_rank_lt (n : nat) : 0 < n → nearest_rank n < n.
Proof.
  intros Hn. unfold nearest_rank.
  assert (95 * (Z.of_nat n - 1) / 100 ≤ Z.of_nat n - 1)%Z
    by (Z.to_euclidean_division_equations; lia).
  assert (0 ≤ 95 * (Z.of_nat n - 1) / 100)%Z
    by (Z.to_euclidean_division_equations; lia).
  lia.
Qed.

(** Up to [2^48] latencies the index that [main] computes in double
    precision is the nearest rank. *)
Lemma p95_index_nearest_rank (n : nat) :
  0 < n → (Z.of_nat n ≤ 2 ^ 48)%Z →
  p95_index n = inr (Z.of_nat (nearest_rank n)).
Proof.
  intros Hn Hmax. unfold p95_index, nearest_rank.
  destruct (Z.of_nat n - 1)%Z as [|k|k] eqn:E; [done| |lia].
  rewrite trunc_mul_0_95
    by (change (2 ^ 48)%Z with 281474976710656%Z in *; lia).
  f_equal.
  rewrite Z2Nat.id; [done|]. Z.to_euclidean_division_equations; lia.
Qed.

Lemma list_index_lookup {A} (l : list A) (i : nat) (x : A) :
  l !! i = Some x → list_index l (Z.of_nat i) = inr x.
Proof.
  intros Hi. unfold list_index.
  assert (Hge : (Z.of_nat i <? 0)%Z = false) by (apply Z.ltb_ge; lia).
  rewrite Hge; cbv beta iota. by rewrite Hge, Nat2Z.id, Hi.
Qed.

Lemma p95_lat_nonempty (l : list float) :
  0 < length l →
  p95_lat l =
    match p95_index (length (sorted l)) with
    | inl e => inl e
    | inr idx => match list_index (sorted l) idx with
                 | inl e => inl e
                 | inr x => inr (Some x)
                 end
    end.
Proof. destruct l; [simpl; lia | done]. Qed.

(** Why the bound: the product [0.95 * (n - 1)] is rounded to double
    precision, and far beyond [2^48], at [n - 1 = 1185157796676461], the
    rounding reaches the next integer, so that [int] no longer gives
    [floor(0.95 * (n - 1))] computed on the integers. *)
Lemma p95_beyond_double_precision :
  ∃ x y, p95_lat long_latencies = inr (Some x) ∧
         sorted long_latencies !! nearest_rank (length long_latencies)
           = Some y ∧
         x ≠ y.
Proof.
  exists (PyFloat.of_int 1), PyFloat.f0. unfold long_latencies.
  set (n1 := Z.to_nat 1125899906842638).
  set (n2 := Z.to_nat 59257889833824).
  assert (Hn1 : Z.of_nat n1 = 1125899906842638%Z) by (subst n1; lia).
  assert (Hn2 : Z.of_nat n2 = 59257889833824%Z) by (subst n2; lia).
  clearbody n1 n2.
  set (l := replicate n1 PyFloat.f0 ++ replicate n2 (PyFloat.of_int 1)).
  assert (Hsorted : sorted l = l) by (by apply sorted_two_runs).
  assert (Hlen : length l = n1 + n2)
    by (unfold l; by rewrite length_app, !length_replicate).
  assert (Hk : (Z.of_nat (n1 + n2) - 1 = 1185157796676461)%Z) by lia.
  split; [|split].
  - rewrite p95_lat_nonempty by (rewrite Hlen; lia).
    rewrite Hsorted, Hlen. unfold p95_index. rewrite Hk.
    replace (PyFloat.trunc _) with (Some (Z.of_nat n1))
      by (rewrite Hn1; vm_compute; reflexivity).
    rewrite (list_index_lookup _ _ (PyFloat.of_int 1)); [done|].
    unfold l. rewrite lookup_app_r by (rewrite length_replicate; lia).
    rewrite length_replicate, Nat.sub_diag.
    destruct n2; [lia|done].
  - rewrite Hsorted, Hlen. unfold nearest_rank. rewrite Hk.
    change (95 * 1185157796676461 / 100)%Z with 1125899906842637%Z.
    unfold l. rewrite lookup_app_l by (rewrite length_replicate; lia).
    apply lookup_replicate_2. lia.
  - intros H. vm_compute in H. discriminate H.
Qed.

(** C5: for a non-empty sequence of [n] latencies, [n] at most [2^48],
    the p95 is the element at index [floor(0.95 * (n - 1))] of the
    sequence sorted in ascending order; for 10 ms, 20 ms, 30 ms, 40 ms,
    50 ms it is 40 ms; for the empty sequence there is none. *)
Theorem p95_nearest_rank (l : list float) :
  (l = [] → p95_lat l = inr None) ∧
  (l ≠ [] → (Z.of_nat (length l) ≤ 2 ^ 48)%Z →
   sorted l ≡ₚ l ∧ Sorted not_above (sorted l) ∧
   ∃ x, sorted l !! nearest_rank (length l) = Some x ∧
        p95_lat l = inr (Some x)) ∧
  nearest_rank (length five_latencies) = 3 ∧
  p95_lat five_latencies = inr (Some (millis 40)).
Proof.
  split; [by intros ->|]. split; [|split; [done|vm_compute; reflexivity]].
  intros Hne Hmax.
  split; [apply sorted_Permutation|]. split; [apply sorted_Sorted|].
  assert (Hn : 0 < length l) by (destruct l; [done|simpl; lia]).
  destruct (lookup_lt_is_Some_2 (sorted l) (nearest_rank (length l))) as [x Hx].
  { rewrite length_sorted. by apply nearest_rank_lt. }
  exists x. split; [done|].
  rewrite p95_lat_nonempty by done.
  rewrite length_sorted, p95_index_nearest_rank by done.
  by rewrite (list_index_lookup _ _ x).
Qed.

Lemma p95_nearest_rank_witness :
  ∃ x, sorted five_latencies !! 3 = Some x ∧
       p95_lat five_latencies = inr (Some x) ∧ x = millis 40.
Proof.
  destruct (p95_nearest_rank five_latencies) as (_ & Hrank & _ & _).
  destruct Hrank as (_ & _ & x & Hx & Hp95); [done|vm_compute; done|].
  exists x. split; [exact Hx|]. split; [exact Hp95|].
  vm_compute in Hx. by injection Hx as <-.
Defined.

(** * Further properties of the fold and of the loop *)

(** ** The error key *)

Lemma split_colon_head_prefix (s : string) :
  ∃ rest, s = split_colon_head s +:+ rest.
Proof.
  induction s as [|c s [rest IH]]; simpl; [by exists ""|].
  destruct (Ascii.eqb c colon).
  - by exists (String c s).
  - exists rest.
    change (String c s = String c (split_colon_head s +:+ rest)).
    by f_equal.
Qed.

Lemma split_colon_head_no_colon (s : string) :
  colon ∉ chars (split_colon_head s).
Proof.
  induction s as [|c s IH]; simpl; [apply not_elem_of_nil|].
  destruct (Ascii.eqb_spec c colon) as [->|Hne]; simpl;
    [apply not_elem_of_nil|].
  apply not_elem_of_cons. split; [congruence|done].
Qed.

Lemma split_colon_head_id (s : string) :
  colon ∉ chars s → split_colon_head s = s.
Proof.
  induction s as [|c s IH]; simpl; [done|].
  intros [Hc Hs]%not_elem_of_cons.
  destruct (Ascii.eqb_spec c colon) as [->|_]; [done|]. by rewrite IH.
Qed.

Lemma str_take_prefix (n : nat) (s : string) :
  ∃ rest, s = str_take n s +:+ rest.
Proof.
  revert s. induction n as [|n IH]; intros s; simpl; [by exists s|].
  destruct s as [|c s]; [by exists ""|].
  destruct (IH s) as [rest Hrest]. exists rest.
  change (String c s = String c (str_take n s +:+ rest)). by f_equal.
Qed.

Lemma str_take_length (n : nat) (s : string) :
  String.length (str_take n s) = n `min` String.length s.
Proof.
  revert s. induction n as [|n IH]; intros [|c s]; simpl; try done.
  by rewrite IH.
Qed.

Lemma str_take_chars (n : nat) (s : string) (c : ascii) :
  c ∈ chars (str_take n s) → c ∈ chars s.
Proof.
  revert s. induction n as [|n IH]; intros [|c' s]; simpl;
    try (by intros ?%elem_of_nil).
  rewrite !elem_of_cons. intros [->|Hin]; [by left|right; by apply IH].
Qed.

Lemma str_take_id (n : nat) (s : string) :
  String.length s ≤ n → str_take n s = s.
Proof.
  revert s. induction n as [|n IH]; intros [|c s]; simpl; try done; [lia|].
  intros Hlen. rewrite IH; [done|lia].
Qed.

Lemma append_assoc (a b c : string) : (a +:+ b) +:+ c = a +:+ (b +:+ c).
Proof.
  induction a as [|x a IH]; [done|].
  change (String x ((a +:+ b) +:+ c) = String x (a +:+ (b +:+ c))).
  by f_equal.
Qed.

Lemma error_key_short (s : string) : short_key (error_key s).
Proof.
  split.
  - unfold error_key. rewrite str_take_length. lia.
  - intros Hin%str_take_chars. by apply (split_colon_head_no_colon s).
Qed.

(** X1: the key under which an error text is counted opens the text, is at
    most 60 characters long and holds no colon; a text that is itself
    such a key is its own key. *)
Theorem error_key_spec (s : string) :
  (∃ rest, s = error_key s +:+ rest) ∧
  short_key (error_key s) ∧
  (short_key s → error_key s = s).
Proof.
  split; [|split; [apply error_key_short|]].
  - destruct (split_colon_head_prefix s) as [r1 H1].
    destruct (str_take_prefix 60 (split_colon_head s)) as [r2 H2].
    exists (r2 +:+ r1). unfold error_key.
    by rewrite <- append_assoc, <- H2, <- H1.
  - intros [Hlen Hcolon]. unfold error_key.
    rewrite split_colon_head_id by done. by apply str_take_id.
Qed.

Lemma error_key_spec_witness :
  error_key "Expecting value" = "Expecting value".
Proof.
  apply (error_key_spec "Expecting value"). split; [simpl; lia|].
  vm_compute. intros H. repeat (apply elem_of_cons in H as [H|H]; [done|]).
  by apply elem_of_nil in H.
Defined.

(** ** Invariants of the statistics *)

Lemma counter_get_incr_le `{Countable K} (k k' : K) (c : gmap K nat) :
  counter_get c k' ≤ counter_get (counter_incr k c) k'.
Proof. rewrite counter_get_incr. case_decide; lia. Qed.

Lemma counter_incr_lookup_is_Some `{Countable K} (k k' : K) (c : gmap K nat) :
  is_Some (counter_incr k c !! k') ↔ k = k' ∨ is_Some (c !! k').
Proof.
  unfold counter_incr. rewrite lookup_insert_is_Some.
  destruct (decide (k = k')) as [->|Hne]; split; auto.
  - intros [[]|[]]; auto.
  - intros [|]; [done|auto].
Qed.

Lemma count_failure_bounded (key : option string) (st : Stats) :
  counter_total (error_samples st) ≤ failures st →
  (∀ k, is_Some (error_samples st !! k) → short_key k) →
  (∀ k, key = Some k → short_key k) →
  counter_total (error_samples (count_failure key st))
    ≤ failures (count_failure key st) ∧
  ∀ k, is_Some (error_samples (count_failure key st) !! k) → short_key k.
Proof.
  intros H1 H2 H3. destruct key as [key|]; simpl; [|split; [lia|done]].
  rewrite counter_total_incr. split; [lia|].
  intros k [->|Hk]%counter_incr_lookup_is_Some; [by apply H3|by apply H2].
Qed.

(** X2: the error histogram: its counts sum to at most [failures] (a failure
    with an empty text is counted under no key), and each of its keys is
    at most 60 characters long and holds no colon. *)
Theorem error_samples_bounded args evs s :
  exec args evs init = Some s →
  counter_total (error_samples (stats s)) ≤ failures (stats s) ∧
  ∀ k, is_Some (error_samples (stats s) !! k) → short_key k.
Proof.
  apply (exec_stats_invariant args
    (λ st, counter_total (error_samples st) ≤ failures st ∧
           ∀ k, is_Some (error_samples st !! k) → short_key k)).
  - split; [done|]. intros k [x Hx]. done.
  - done.
  - intros b call t0 t1 st st' [Hsum Hkeys] Hcut.
    destruct Hcut as [|r _|r _|r _|r msg _ _ _ _|cls msg _|]; try done.
    + by apply count_failure_bounded.
    + by apply count_failure_bounded.
    + destruct call as [r|cls msg]; unfold folded.
      * destruct (b && _), (json r) as [msg|[]]; try done.
        apply count_failure_bounded; try done.
        intros k [= <-]. apply error_key_short.
      * apply count_failure_bounded; try done. destruct msg; [done|].
        intros k [= <-]. apply error_key_short.
Qed.

Lemma error_samples_bounded_witness :
  ∃ s, exec args_chat (run_two bad_json) init = Some s ∧
       counter_total (error_samples (stats s)) ≤ failures (stats s).
Proof.
  eexists. split; [vm_compute; reflexivity|].
  apply (proj1 (error_samples_bounded args_chat (run_two bad_json) _
                  ltac:(vm_compute; reflexivity))).
Defined.

Lemma counter_total_lookup `{Countable K} (c : gmap K nat) (k : K) (n : nat) :
  c !! k = Some n → n ≤ counter_total c.
Proof.
  intros Hk. rewrite <- (insert_delete_id c k n Hk).
  rewrite counter_total_insert_fresh by apply lookup_delete_eq. lia.
Qed.

(** At every point no bucket of the status histogram has the key [None],
    every bucket counts at least one response, and the buckets sum to at
    most [successes]. *)
Lemma status_buckets args evs s :
  exec args evs init = Some s →
  status_counts (stats s) !! None = None ∧
  (∀ c n, status_counts (stats s) !! c = Some n → 0 < n) ∧
  counter_total (status_counts (stats s)) ≤ successes (stats s).
Proof.
  apply (exec_stats_invariant args (λ st,
    status_counts st !! None = None ∧
    (∀ c n, status_counts st !! c = Some n → 0 < n) ∧
    counter_total (status_counts st) ≤ successes st)).
  - repeat split; done.
  - done.
  - intros b call t0 t1 st st' (HN & Hpos & Htot) Hcut.
    assert (Hnew : ∀ r,
      counter_incr (Some (status_code r)) (status_counts st) !! None = None ∧
      (∀ c n, counter_incr (Some (status_code r)) (status_counts st)
                !! c = Some n → 0 < n) ∧
      counter_total (counter_incr (Some (status_code r)) (status_counts st))
        ≤ S (successes st)).
    { intros r. split; [unfold counter_incr; by rewrite lookup_insert_ne|].
      split; [|rewrite counter_total_incr; lia].
      intros c n. unfold counter_incr.
      destruct (decide (Some (status_code r) = c)) as [<-|Hne].
      - rewrite lookup_insert_eq. intros [= <-]. lia.
      - rewrite lookup_insert_ne by done. apply Hpos. }
    destruct Hcut as [|r _|r _|r _|r msg _ _ _ _|cls msg _|]; simpl;
      try done; try (by apply Hnew).
    + repeat split; try done. lia.
    + destruct call as [r|cls msg]; simpl; [|done].
      specialize (Hnew r). by destruct (b && _), (json r).
Qed.

(** X3: the buckets of the status histogram: no bucket has the key [None]
    and every bucket that exists counts at least one response; when there
    is no success the histogram is empty, and unless the operator
    interrupts inside a fold it is empty, so that the report prints no
    "Status codes:" section, exactly when there is no success. *)
Theorem status_counts_buckets args evs s :
  exec args evs init = Some s →
  status_counts (stats s) !! None = None ∧
  (∀ c n, status_counts (stats s) !! c = Some n → 0 < n) ∧
  (successes (stats s) = 0 → status_counts (stats s) = ∅) ∧
  (Forall (λ ev, inside_fold ev = false) evs →
   (status_counts (stats s) = ∅ ↔ successes (stats s) = 0)).
Proof.
  intros Hex. destruct (status_buckets _ _ _ Hex) as (HN & Hpos & Hle).
  assert (Hempty : counter_total (status_counts (stats s)) = 0 →
                   status_counts (stats s) = ∅).
  { intros Hz. apply map_empty. intros c.
    destruct (status_counts (stats s) !! c) as [n|] eqn:Hc; [|done].
    pose proof (Hpos c n Hc). pose proof (counter_total_lookup _ _ _ Hc).
    lia. }
  split; [done|]. split; [done|]. split.
  - intros Hz. apply Hempty. lia.
  - intros Hwhole. pose proof (status_counted _ _ _ Hex Hwhole) as Htot.
    split.
    + intros Hemp. by rewrite <- Htot, Hemp.
    + intros Hz. apply Hempty. lia.
Qed.

Lemma status_counts_buckets_witness :
  ∃ s, exec args_chat (run_two err500) init = Some s ∧
       status_counts (stats s) !! None = None ∧
       status_counts (stats s) ≠ ∅.
Proof.
  eexists. split; [vm_compute; reflexivity|].
  destruct (status_counts_buckets args_chat (run_two err500) _
              ltac:(vm_compute; reflexivity)) as (HN & _ & _ & Hiff).
  split; [exact HN|]. intros Hemp.
  apply (Hiff ltac:(repeat constructor)) in Hemp. discriminate Hemp.
Defined.

(** What an interrupt inside a fold, or the whole fold, does to the three
    counters. *)
Lemma cut_of_counts b call t0 t1 st st' :
  cut_of b call t0 t1 st st' →
  attempts st' = attempts st ∧
  successes st ≤ successes st' ≤ S (successes st) ∧
  failures st ≤ failures st' ≤ S (failures st).
Proof.
  destruct 1 as [|r _|r _|r _|r msg _ _ _ _|cls msg _|]; simpl; try lia.
  destruct call as [r|cls msg]; simpl; [|lia].
  destruct (b && _), (json r); simpl; lia.
Qed.

Lemma folded_successes b call t0 t1 st :
  successes (folded b call t0 t1 st) ≤ S (successes st) ∧
  failures (folded b call t0 t1 st) ≤ S (failures st) ∧
  attempts (folded b call t0 t1 st) = attempts st.
Proof.
  destruct (cut_of_counts b call t0 t1 st _ (cut_whole _ _ _ _ _)). lia.
Qed.

(** X4: no more outcomes than attempts: at every point, [successes] and
    [failures], each with the requests still pending, are at most
    [attempts]. *)
Theorem outcomes_below_attempts args evs s :
  exec args evs init = Some s →
  successes (stats s) + length (pending s) ≤ attempts (stats s) ∧
  failures (stats s) + length (pending s) ≤ attempts (stats s).
Proof.
  apply (exec_transitions args
    (λ s, successes (stats s) + length (pending s) ≤ attempts (stats s) ∧
          failures (stats s) + length (pending s) ≤ attempts (stats s)));
    [simpl; lia|].
  clear s. intros ev s s' _ [HS HF] Htr. unfold pending in *.
  destruct Htr as [r1 r2 call t0 t1 req s Hph Htodo Hreq|
                   r1 r2 call t0 t1 cls msg s Hph Htodo Hreq|
                   ids s Hph Htodo|i f call t0 t1 s Hph Hi Hf|
                   s Hph Htodo|i f call t0 t1 s Hph Hi Hf|
                   s Hph Htodo|s Hph|s Hph Htodo|
                   i k f call t0 t1 s Hph Hi Hf|
                   i k f call t0 t1 s Hph Hi Hf]; simpl;
    rewrite ?Htodo, ?length_app in *; simpl in *; try lia.
  - pose proof (filter_app_complement (λ f, fid f ∈ ids) (inflight s)) as Hp.
    apply Permutation_length in Hp. rewrite length_app in Hp. lia.
  - rewrite length_delete by eauto. apply lookup_lt_Some in Hi.
    pose proof (folded_successes (bool_decide (mode args = chat))
                  call t0 t1 (stats s)). lia.
  - rewrite length_delete by eauto. apply lookup_lt_Some in Hi.
    pose proof (folded_successes false call t0 t1 (stats s)). lia.
  - rewrite length_delete by eauto. apply lookup_lt_Some in Hi.
    pose proof (cut_of_counts _ _ _ _ _ _
                  (partial_fold_cut_of (bool_decide (mode args = chat))
                     call t0 t1 k (stats s))). lia.
  - rewrite length_delete by eauto. apply lookup_lt_Some in Hi.
    pose proof (cut_of_counts _ _ _ _ _ _
                  (partial_fold_cut_of false call t0 t1 k (stats s))). lia.
Qed.

Lemma outcomes_below_attempts_witness :
  ∃ s, exec args_chat (run_two bad_json) init = Some s ∧
       successes (stats s) + length (pending s) ≤ attempts (stats s) ∧
       failures (stats s) + length (pending s) ≤ attempts (stats s).
Proof.
  eexists. split; [vm_compute; reflexivity|].
  apply (outcomes_below_attempts args_chat (run_two bad_json) _
           ltac:(vm_compute; reflexivity)).
Defined.
(** ** The counters only grow *)

Lemma stats_le_refl st : stats_le st st.
Proof. by repeat split. Qed.

Lemma stats_le_trans st1 st2 st3 :
  stats_le st1 st2 → stats_le st2 st3 → stats_le st1 st3.
Proof.
  intros (A1 & S1 & F1 & L1 & C1 & E1) (A2 & S2 & F2 & L2 & C2 & E2).
  repeat split; try lia; [by etrans|..]; intros k.
  - specialize (C1 k). specialize (C2 k). lia.
  - specialize (E1 k). specialize (E2 k). lia.
Qed.

Lemma stats_le_count_attempt st : stats_le st (count_attempt st).
Proof. repeat split; simpl; auto. Qed.

Lemma stats_le_count_success c l st : stats_le st (count_success c l st).
Proof.
  repeat split; simpl; auto.
  - by apply prefix_app_r.
  - intros k. apply counter_get_incr_le.
Qed.

Lemma stats_le_count_failure key st : stats_le st (count_failure key st).
Proof.
  repeat split; simpl; auto.
  intros k. destruct key; [apply counter_get_incr_le|done].
Qed.

Lemma stats_le_folded b call t0 t1 st : stats_le st (folded b call t0 t1 st).
Proof.
  destruct call as [r|cls msg]; unfold folded.
  - destruct (b && _), (json r) as [msg|[]];
      eauto using stats_le_trans, stats_le_count_success,
                  stats_le_count_failure.
  - apply stats_le_count_failure.
Qed.

Lemma stats_le_cut_of b call t0 t1 st st' :
  cut_of b call t0 t1 st st' → stats_le st st'.
Proof.
  destruct 1 as [|r _|r _|r _|r msg _ _ _ _|cls msg _|];
    eauto using stats_le_refl, stats_le_folded, stats_le_count_success,
                stats_le_count_failure, stats_le_trans.
  - repeat split; simpl; auto.
  - repeat split; simpl; auto. intros c. apply counter_get_incr_le.
Qed.

(** X5: nothing is ever taken back: from any point of a run to any later
    point, no counter and no bucket of either histogram decreases, and the
    latencies recorded so far stay where they are, new ones being appended
    after them. *)
Theorem stats_monotone args evs evs' s s' :
  exec args evs init = Some s →
  exec args evs' s = Some s' →
  stats_le (stats s) (stats s').
Proof.
  intros Hex Hex'.
  apply (exec_transitions_from args (λ s1, stats_le (stats s) (stats s1)) s
           (exec_made_by _ _ _ Hex) (stats_le_refl _)) in Hex' as [H _];
    [done|].
  clear. intros ev s1 s2 _ Hle Htr. eapply stats_le_trans; [exact Hle|].
  destruct Htr; simpl;
    eauto using stats_le_refl, stats_le_count_attempt, stats_le_folded,
                stats_le_cut_of, partial_fold_cut_of.
Qed.

Lemma stats_monotone_witness :
  ∃ s s', exec args_chat (take 4 (run_two bad_json)) init = Some s ∧
          exec args_chat (drop 4 (run_two bad_json)) s = Some s' ∧
          stats_le (stats s) (stats s').
Proof.
  do 2 eexists. split; [vm_compute; reflexivity|].
  split; [vm_compute; reflexivity|].
  apply (stats_monotone args_chat (take 4 (run_two bad_json))
           (drop 4 (run_two bad_json)) _ _
           ltac:(vm_compute; reflexivity) ltac:(vm_compute; reflexivity)).
Defined.

(** ** When [submit_one] raises *)

Lemma draw_want_defined args r :
  ∃ want, draw (want_outcomes args) r = inr want ∧
          (min_words args ≤ want ≤ Z.max (min_words args) (max_words args))%Z.
Proof.
  destruct (want_outcomes_interval args) as (l & Hl & Hne & _ & Hin & _).
  destruct (draw_outcomes l r Hne) as (n & Hn & Hnl).
  exists n. rewrite Hl. split; [done|]. by apply Hin.
Qed.

Lemma build_request_defined args r1 r2 :
  mode args = get ∨ prompts args ≠ [] →
  ∃ req, build_request args r1 r2 = inr req.
Proof.
  intros Hok. unfold build_request. destruct (mode args) eqn:Hm; [eauto|].
  destruct Hok as [|Hne]; [done|].
  destruct (draw_choice_nonempty _ r1 Hne) as (base & -> & _).
  destruct (draw_want_defined args r2) as (want & -> & _). eauto.
Qed.

(** Once the pool is built, in get mode and in chat mode with at least
    one prompt, no exception leaves the loops. *)
Lemma exec_not_crashed args evs s :
  mode args = get ∨ prompts args ≠ [] →
  exec args evs init = Some s →
  ¬ crashed s.
Proof.
  intros Hok. revert evs s.
  apply (exec_transitions args (λ s, ¬ crashed s)).
  - intros [e He]. done.
  - intros ev s s' _ Hs Htr [e He].
    destruct Htr as [| r1 r2 call t0 t1 cls msg s Hph Htodo Hreq
                     | | | | | | | | |]; simpl in He; try done.
    destruct (build_request_defined args r1 r2 Hok) as [req Hreq'].
    congruence.
Qed.

(** X6: in get mode, and in chat mode with at least one prompt, the only
    exception that ever leaves [main]'s try block is the [ValueError] of
    [ThreadPoolExecutor] for [--concurrency] zero or negative, raised
    before any request: with a positive number of workers [submit_one]
    does not raise, whatever the word counts and the random draws are,
    and both folds catch what the requests raise. *)
Theorem never_crashes args evs s :
  mode args = get ∨ prompts args ≠ [] →
  exec args evs (start args) = Some s →
  (crashed s ↔ (concurrency args ≤ 0)%Z) ∧
  (crashed s →
   evs = [] ∧ stats s = stats0 ∧
   phase s = Crashed (Exception "ValueError"
                        "max_workers must be greater than 0")).
Proof.
  intros Hok. unfold start.
  destruct (Z.leb_spec (concurrency args) 0) as [Hc|Hc]; intros Hex.
  - apply exec_done in Hex as [-> ->]; [|by intros [H|H]].
    split; [split; [done|by eexists]|done].
  - pose proof (exec_not_crashed _ _ _ Hok Hex) as Hnc.
    split; [split; [done|lia]|done].
Qed.

Lemma never_crashes_witness :
  (∃ s, exec args_inverted (run_two refused) (start args_inverted) = Some s ∧
        ¬ crashed s) ∧
  crashed (start args_no_workers).
Proof.
  split.
  - eexists. split; [vm_compute; reflexivity|].
    destruct (never_crashes args_inverted (run_two refused) _
                ltac:(right; done) ltac:(vm_compute; reflexivity))
      as [Hiff _].
    intros Hc%Hiff. vm_compute in Hc. by apply Hc.
  - apply (never_crashes args_no_workers [] (start args_no_workers)
             ltac:(left; reflexivity) eq_refl). reflexivity.
Defined.

(** X7: in chat mode with an empty list of prompts the first [submit_one]
    raises [IndexError] out of [main]: as soon as one attempt is counted
    the run is over, with one attempt, no request sent and no outcome;
    there is no report, unless the operator's interrupt fell inside that
    very [submit_one], before [random.choice]. *)
Theorem empty_corpus_crashes args evs s :
  mode args = chat → prompts args = [] →
  exec args evs init = Some s →
  0 < attempts (stats s) →
  stats s = count_attempt stats0 ∧
  pending s = [] ∧
  (phase s = Crashed (Exception "IndexError"
                        "Cannot choose from an empty sequence") ∨
   phase s = Done true) ∧
  (Forall (λ ev, inside_submit ev = false) evs →
   phase s = Crashed (Exception "IndexError"
                        "Cannot choose from an empty sequence") ∧
   report s = None).
Proof.
  intros Hm Hp Hex Hatt.
  cut ((stats s = stats0 ∧ pending s = []) ∨
       (stats s = count_attempt stats0 ∧ pending s = [] ∧
        (phase s = Crashed (Exception "IndexError"
                              "Cannot choose from an empty sequence") ∨
         phase s = Done true ∧
         ¬ Forall (λ ev, inside_submit ev = false) evs))).
  { intros [[Hst _]|(Hst & Hpe & Hph)].
    - rewrite Hst in Hatt. simpl in Hatt. lia.
    - split; [done|]. split; [done|]. split; [tauto|].
      intros Hwhole. destruct Hph as [Hph|[_ Hcut]]; [|done].
      split; [done|]. unfold report. by rewrite Hph. }
  clear Hatt. revert evs s Hex.
  apply (exec_transitions_trace args (λ evs s,
    (stats s = stats0 ∧ pending s = []) ∨
    (stats s = count_attempt stats0 ∧ pending s = [] ∧
     (phase s = Crashed (Exception "IndexError"
                           "Cannot choose from an empty sequence") ∨
      phase s = Done true ∧
      ¬ Forall (λ ev, inside_submit ev = false) evs)))); [by left|].
  intros evs ev s s' _ [[Hst Hpe]|(_ & _ & Hph)] Htr.
  - unfold pending in *. apply app_eq_nil in Hpe as [Hi Ht].
    destruct Htr as [r1 r2 call t0 t1 req s _ _ Hreq
                    |r1 r2 call t0 t1 cls msg s _ _ Hreq
                    |ids s _ _|i f call t0 t1 s _ Hl _| s _ _
                    |i f call t0 t1 s _ Hl _|s _ _|s _|s _ _
                    |i k f call t0 t1 s _ Hl _
                    |i k f call t0 t1 s _ Hl _]; simpl;
      rewrite ?Hi, ?Ht, ?Hst in *; try (by left); try done.
    + unfold build_request in Hreq. by rewrite Hm, Hp in Hreq.
    + right. unfold build_request in Hreq. rewrite Hm, Hp in Hreq.
      injection Hreq as <- <-. auto.
    + right. split; [done|]. split; [done|]. right. split; [done|].
      intros [_ Hcut]%Forall_app. by apply Forall_cons in Hcut as [? _].
  - destruct (transition_live _ _ _ _ Htr) as [Hl|Hl];
      destruct Hph as [Hph|[Hph _]]; congruence.
Qed.

Lemma empty_corpus_crashes_witness :
  ∃ s, exec args_no_prompts [Wait []; Submit 0 0 ok200 (millis 0) (millis 10)]
         init = Some s ∧
       stats s = count_attempt stats0 ∧ report s = None.
Proof.
  eexists. split; [vm_compute; reflexivity|].
  destruct (empty_corpus_crashes args_no_prompts
              [Wait []; Submit 0 0 ok200 (millis 0) (millis 10)] _
              eq_refl eq_refl ltac:(vm_compute; reflexivity)
              ltac:(vm_compute; lia)) as (Hst & _ & _ & Hrep).
  split; [exact Hst|]. apply Hrep. repeat constructor.
Defined.
(** ** The two folds *)

(** X8: whatever a future holds, short of a [KeyboardInterrupt], neither fold
    lets an exception out, and neither touches [attempts]: the drain fold
    counts exactly one outcome, the harvest fold one or two. *)
Theorem folds_catch_exceptions args f st :
  result f ≠ inl KeyboardInterrupt →
  (∃ st', harvest_fold args f st = (st', inr tt) ∧
          attempts st' = attempts st ∧
          successes st + failures st + 1 ≤ successes st' + failures st' ∧
          successes st' + failures st' ≤ successes st + failures st + 2) ∧
  (∃ st', drain_fold f st = (st', inr tt) ∧
          attempts st' = attempts st ∧
          successes st' + failures st' = successes st + failures st + 1).
Proof.
  intros Hki. unfold harvest_fold, drain_fold, try_except, bind, lift.
  destruct (result f) as [[cls msg|]|[[] c [l|] e r]]; simpl; try done.
  - split; eexists; (split; [reflexivity|simpl; lia]).
  - split; [|eexists; split; [reflexivity|simpl; lia]].
    case_bool_decide; simpl; [|eexists; split; [reflexivity|simpl; lia]].
    destruct r as [r|]; simpl; [destruct (json r); simpl|];
      eexists; (split; [reflexivity|simpl; lia]).
  - split; [|eexists; split; [reflexivity|simpl; lia]].
    case_bool_decide; simpl; [|eexists; split; [reflexivity|simpl; lia]].
    destruct r as [r|]; simpl; [destruct (json r); simpl|];
      eexists; (split; [reflexivity|simpl; lia]).
  - split; destruct (truthy e); simpl;
      eexists; (split; [reflexivity|simpl; lia]).
  - split; destruct (truthy e); simpl;
      eexists; (split; [reflexivity|simpl; lia]).
Qed.

Lemma folds_catch_exceptions_witness :
  ∃ st', harvest_fold args_chat bad_future stats0 = (st', inr tt) ∧
         successes st' + failures st' = 2.
Proof.
  destruct (folds_catch_exceptions args_chat bad_future stats0
              ltac:(done)) as [(st' & Hf & _ & H1 & H2) _].
  exists st'. split; [exact Hf|].
  vm_compute in Hf. injection Hf as <-. reflexivity.
Defined.

(** X9: the harvest fold and the drain fold are the same function of the
    future and the statistics, except on a successful outcome of status
    200 in chat mode, the only one whose body the harvest decodes. *)
Theorem harvest_is_drain args f st :
  ¬ (mode args = chat ∧
     ∃ o, result f = inr o ∧ ok o = true ∧ code o = Some 200%Z) →
  harvest_fold args f st = drain_fold f st.
Proof.
  intros Hno. unfold harvest_fold, drain_fold, try_except, bind, lift.
  destruct (result f) as [e|o] eqn:Hr; [done|].
  destruct (ok o) eqn:Hok; [|done]. simpl.
  case_bool_decide as Hd; [|by destruct (lat o)].
  destruct Hno. destruct Hd. eauto.
Qed.

Lemma harvest_is_drain_witness :
  harvest_fold args_get bad_future stats0 = drain_fold bad_future stats0.
Proof.
  apply (harvest_is_drain args_get bad_future stats0).
  intros [Hm _]. discriminate Hm.
Defined.

(** ** The tallies do not depend on the order of completion *)

Lemma outcomes_of_snoc evs ev :
  outcomes_of (evs ++ [ev]) =
  outcomes_of evs ++ match ev with
                     | Submit _ _ call t0 t1 => [do_request call t0 t1]
                     | _ => []
                     end.
Proof. unfold outcomes_of. rewrite bind_app. simpl. by rewrite app_nil_r. Qed.

Lemma outcomes_held_take (l1 l2 : list Future) i f o :
  l2 !! i = Some f → result f = inr o →
  outcomes_held (l1 ++ l2) ≡ₚ o :: outcomes_held (l1 ++ delete i l2).
Proof.
  intros Hi Hf. unfold outcomes_held.
  rewrite (delete_Permutation l2 i f Hi) at 1.
  rewrite <- Permutation_middle. simpl. by rewrite Hf.
Qed.

Lemma ledger_Permutation b st os os' total :
  os ≡ₚ os' → ledger b st os total → ledger b st os' total.
Proof.
  unfold ledger, successes_in, failures_in, status_in, latencies_in.
  intros Hp (H1 & H2 & H3 & H4 & H5).
  split; [by rewrite <- Hp|]. split; [intros c; by rewrite <- Hp|].
  split; [by rewrite <- Hp|]. split; [by rewrite <- Hp|].
  by rewrite <- Hp.
Qed.

Lemma ledger_submit b st os total o :
  ledger b st os total →
  ledger b (count_attempt st) (os ++ [o]) (total ++ [o]).
Proof.
  unfold ledger, successes_in, failures_in, status_in, latencies_in.
  intros (H1 & H2 & H3 & H4 & H5).
  unfold count_attempt. cbn [successes failures status_counts latencies].
  rewrite !filter_app, !length_app, !omap_app.
  split; [lia|].
  split; [intros c; specialize (H2 c);
          rewrite !filter_app, !length_app; lia|].
  split; [by rewrite app_assoc, H3|]. split; [lia|].
  intros Hb. specialize (H5 Hb). lia.
Qed.

Lemma ledger_fold b b' call t0 t1 st os total :
  (b' = true → b = true) →
  ledger b st (do_request call t0 t1 :: os) total →
  ledger b (folded b' call t0 t1 st) os total.
Proof.
  unfold ledger, successes_in, failures_in, status_in, latencies_in.
  intros Hb (H1 & H2 & H3 & H4 & H5).
  destruct call as [r|cls msg]; unfold folded, do_request.
  - rewrite filter_cons_True in H1 by done.
    rewrite filter_cons_False in H4, H5 by done. simpl in H1, H3.
    assert (Hc : ∀ c,
      counter_get (counter_incr (Some (status_code r)) (status_counts st)) c
        + length (filter (λ o, ok o = true ∧ code o = c) os)
      = length (filter (λ o, ok o = true ∧ code o = c) total)).
    { intros c. rewrite <- (H2 c), counter_get_incr.
      case_decide as Hd; simplify_eq.
      - rewrite filter_cons_True by done. simpl. lia.
      - rewrite filter_cons_False; [done|]. simpl. intros [_ ?]. done. }
    assert (Hl : (latencies st ++ [PyFloat.sub t1 t0]) ++
                 omap (λ o, if ok o then lat o else None) os
                 ≡ₚ omap (λ o, if ok o then lat o else None) total).
    { by rewrite <- app_assoc. }
    destruct (b' && _) eqn:Hbb, (json r) as [msg|[]]; simpl;
      repeat split; try done; try lia.
    intros ->. apply andb_true_iff in Hbb as [-> _]. by specialize (Hb eq_refl).
  - rewrite filter_cons_False in H1 by done.
    rewrite filter_cons_True in H4, H5 by done. simpl in H3, H4, H5.
    repeat split; simpl; try done; try lia.
    intros Hf. specialize (H5 Hf). lia.
Qed.

(** X10: the tallies are those of the submitted requests, in whatever order
    they complete and whichever loop folds them: as long as [main] has not
    crashed and the operator has not interrupted inside a fold,
    [successes], every bucket of [status_counts] and the latencies,
    together with the outcomes still pending, are the number of responses,
    the number of responses of each status and the latencies of the
    responses among the submitted requests. [failures] covers every
    request that raised, and in get mode is exactly their number. *)
Theorem tallies_of_submitted args evs s :
  exec args evs init = Some s →
  ¬ crashed s →
  Forall (λ ev, inside_fold ev = false) evs →
  ledger (bool_decide (mode args = chat)) (stats s)
    (outcomes_held (pending s)) (outcomes_of evs).
Proof.
  revert evs s. apply (exec_transitions_trace args (λ evs s,
    ¬ crashed s →
    Forall (λ ev, inside_fold ev = false) evs →
    ledger (bool_decide (mode args = chat)) (stats s)
      (outcomes_held (pending s)) (outcomes_of evs))).
  { intros _ _. repeat split; simpl; done. }
  intros evs ev s s' Hex IH Htr Hnc [Hw1 Hw2]%Forall_app.
  apply Forall_cons in Hw2 as [Hw2 _].
  assert (Hlive : ¬ crashed s).
  { intros [e He]. destruct (transition_live _ _ _ _ Htr); congruence. }
  specialize (IH Hlive Hw1). rewrite outcomes_of_snoc. unfold pending in *.
  destruct Htr as [r1 r2 call t0 t1 req s _ Htodo _
                  |r1 r2 call t0 t1 cls msg s _ _ _
                  |ids s _ Htodo|i f call t0 t1 s _ Hi Hf|s _ Htodo
                  |i f call t0 t1 s _ Hi Hf|s _ Htodo|s _|s _ Htodo
                  |i k f call t0 t1 s _ Hi Hf
                  |i k f call t0 t1 s _ Hi Hf];
    try discriminate;
    cbn [stats inflight todo phase] in *;
    rewrite ?Htodo, ?app_nil_r in *; try done.
  - unfold outcomes_held in *. rewrite omap_app. simpl.
    by apply ledger_submit.
  - exfalso. apply Hnc. eexists. reflexivity.
  - eapply ledger_Permutation; [|exact IH]. unfold outcomes_held.
    rewrite (Permutation_app_comm (filter _ _)).
    by rewrite (filter_app_complement (λ f, fid f ∈ ids) (inflight s)).
  - apply ledger_fold; [done|].
    eapply ledger_Permutation; [|exact IH].
    by apply (outcomes_held_take _ _ i f).
  - apply ledger_fold; [done|].
    eapply ledger_Permutation; [|exact IH].
    by apply (outcomes_held_take _ _ i f).
Qed.

Lemma tallies_of_submitted_witness :
  ∃ s, exec args_chat (run_two bad_json) init = Some s ∧
       successes (stats s) = 2 ∧
       counter_get (status_counts (stats s)) (Some 200%Z) = 2.
Proof.
  eexists. split; [vm_compute; reflexivity|].
  destruct (tallies_of_submitted args_chat (run_two bad_json) _
              ltac:(vm_compute; reflexivity)
              ltac:(intros [e He]; discriminate He)
              ltac:(repeat constructor))
    as (H1 & H2 & _).
  split; [exact H1|exact (H2 (Some 200%Z))].
Defined.
(** ** Every run can be brought to its report *)

(** The harvest loop, left alone, visits every future of [done]. *)
Lemma harvest_loop_completes args (l infl : list Future) (st : Stats) :
  submitted l →
  ∃ st', exec args (replicate (length l) (Fold 0))
           (mkState Running st infl l) = Some (mkState Running st' infl []).
Proof.
  intros Hl. revert st. induction Hl as [|f l Hf Hl IH]; intros st.
  - by exists st.
  - destruct Hf as (call & t0 & t1 & _ & Hf).
    destruct (IH (folded (bool_decide (mode args = chat)) call t0 t1 st))
      as (st' & Hex).
    exists st'. simpl. by rewrite (harvest_fold_folded _ _ _ _ _ _ Hf).
Qed.

Lemma folded_counts_some b call t0 t1 st :
  S (successes st + failures st) ≤
    successes (folded b call t0 t1 st) + failures (folded b call t0 t1 st).
Proof.
  destruct call as [r|cls msg]; simpl; [|lia].
  destruct (b && _), (json r); simpl; lia.
Qed.

(** While [main] is in its loops, and after a drain that ran to its end,
    every attempt is pending or was counted at least once. *)
Lemma attempts_accounted args evs s :
  exec args evs init = Some s →
  live s ∨ phase s = Done false →
  attempts (stats s) ≤
    successes (stats s) + failures (stats s) + length (pending s).
Proof.
  revert evs s. apply (exec_transitions args (λ s,
    live s ∨ phase s = Done false →
    attempts (stats s) ≤
      successes (stats s) + failures (stats s) + length (pending s)));
    [simpl; lia|].
  intros ev s s' _ IH Htr Hgo.
  specialize (IH (or_introl (transition_live _ _ _ _ Htr))).
  unfold pending in *.
  destruct Htr as [r1 r2 call t0 t1 req s Hph Htodo Hreq|
                   r1 r2 call t0 t1 cls msg s Hph Htodo Hreq|
                   ids s Hph Htodo|i f call t0 t1 s Hph Hi Hf|
                   s Hph Htodo|i f call t0 t1 s Hph Hi Hf|
                   s Hph Htodo|s Hph|s Hph Htodo|
                   i k f call t0 t1 s Hph Hi Hf|
                   i k f call t0 t1 s Hph Hi Hf];
    try (by destruct Hgo as [[?|?]|?]); simpl;
    rewrite ?Htodo, ?length_app in *; simpl in *; try lia.
  - pose proof (filter_app_complement (λ f, fid f ∈ ids) (inflight s)) as Hp.
    apply Permutation_length in Hp. rewrite length_app in Hp. lia.
  - rewrite length_delete by eauto. apply lookup_lt_Some in Hi.
    pose proof (folded_counts_some (bool_decide (mode args = chat))
                  call t0 t1 (stats s)).
    pose proof (folded_successes (bool_decide (mode args = chat))
                  call t0 t1 (stats s)). lia.
  - rewrite length_delete by eauto. apply lookup_lt_Some in Hi.
    pose proof (folded_counts_some false call t0 t1 (stats s)).
    pose proof (folded_successes false call t0 t1 (stats s)). lia.
Qed.

(** X11: neither loop can get stuck or raise on what the pool hands back: from
    every point at which [main] is inside its [with] block, the run can be
    brought to a report with nothing pending, and in that report every
    attempt is counted: [attempts <= successes + failures]. *)
Theorem run_completes args evs s :
  exec args evs init = Some s →
  live s →
  ∃ evs' s', exec args evs' s = Some s' ∧
             phase s' = Done false ∧
             pending s' = [] ∧
             attempts (stats s') = attempts (stats s) ∧
             attempts (stats s') ≤ successes (stats s') + failures (stats s').
Proof.
  intros Hex Hlive.
  pose proof (exec_made_by _ _ _ Hex) as Hwf.
  pose proof (exec_drained _ _ _ _ Hex I) as Hdr.
  unfold pending in Hwf. apply Forall_app in Hwf as [Hin Htd].
  assert (Hrun : ∃ evs' st', exec args evs' s
                   = Some (mkState (Done false) st' [] []) ∧
                 attempts st' = attempts (stats s)).
  { destruct s as [ph st infl td]. simpl in *.
    destruct Hlive as [Hph|Hph]; simpl in Hph; subst ph.
    - destruct (harvest_loop_completes args td infl st Htd) as (st1 & H1).
      destruct (drain_loop_completes args infl st1 Hin)
        as (st2 & H2 & _ & Hatt).
      exists (replicate (length td) (Fold 0) ++
              Deadline :: replicate (length infl) (Fold 0) ++ [Finish]), st2.
      split.
      + rewrite exec_app, H1. exact H2.
      + rewrite Hatt. clear - H1 Htd. revert st H1.
        induction Htd as [|f l Hf Hl IH]; intros st; simpl.
        * by intros [= <-].
        * destruct Hf as (call & t0 & t1 & _ & Hf).
          rewrite (harvest_fold_folded _ _ _ _ _ _ Hf). simpl.
          intros H1%IH. rewrite H1. apply folded_successes.
    - unfold drained in Hdr. simpl in Hdr. subst infl.
      destruct (drain_loop_completes args td st Htd) as (st2 & H2 & _ & Hatt).
      eauto. }
  destruct Hrun as (evs' & st' & Hex' & Hatt).
  exists evs', (mkState (Done false) st' [] []).
  repeat split; try done.
  assert (Hall : exec args (evs ++ evs') init
                 = Some (mkState (Done false) st' [] []))
    by (by rewrite exec_app, Hex).
  apply attempts_accounted in Hall; [simpl in Hall; simpl; lia|by right].
Qed.

Lemma run_completes_witness :
  ∃ s evs' s', exec args_chat (take 3 (run_two bad_json)) init = Some s ∧
               exec args_chat evs' s = Some s' ∧
               phase s' = Done false ∧ pending s' = [].
Proof.
  eexists.
  destruct (run_completes args_chat (take 3 (run_two bad_json)) _
              ltac:(vm_compute; reflexivity) ltac:(left; reflexivity))
    as (evs' & s' & Hex & Hph & Hpe & _).
  exists evs', s'.
  split; [vm_compute; reflexivity|]. split; [exact Hex|]. by split.
Defined.

(** ** The requests of one second *)

(** X12: every second at least one request is submitted, whatever [--max-rps]
    is: the draw of [rps] never raises, its equiprobable outcomes are the
    integers from 1 to [max(1, max_rps)], each once, and for
    [max_rps <= 1] the only outcome is 1. *)
Theorem rps_at_least_one args :
  ∃ l, rps_outcomes args = inr l ∧ NoDup l ∧
       (∀ n, n ∈ l ↔ (1 ≤ n ≤ Z.max 1 (max_rps args))%Z) ∧
       (∀ r, ∃ n, draw (rps_outcomes args) r = inr n ∧ (1 ≤ n)%Z) ∧
       ((max_rps args ≤ 1)%Z → l = [1%Z]).
Proof.
  destruct (randint_outcomes 1 (Z.max 1 (max_rps args)))
    as (l & Hl & Hnd & Hin & Hlen); [lia|].
  exists l. unfold rps_outcomes. rewrite Hl. repeat split; try done;
    try by apply Hin.
  - intros r. destruct (draw_outcomes l r) as (n & Hn & Hnl).
    { intros ->. simpl in Hlen. lia. }
    exists n. split; [done|]. by apply Hin.
  - intros Hmax. rewrite Z.max_l in Hlen, Hin by done.
    destruct l as [|a [|b l]]; simpl in Hlen; try lia.
    assert (1 ≤ a ≤ 1)%Z by (apply Hin; left). f_equal. lia.
Qed.

(** ** The prompt of a chat request *)

Lemma ends_with_terminal_dot (s : string) :
  ends_with_terminal (s +:+ ".") = true.
Proof.
  induction s as [|c s IH]; [done|].
  destruct s as [|c' s]; [done|]. exact IH.
Qed.

(** X13: a chat request carries one prompt of the corpus, closed by a full
    stop unless it already ends in [.], [?] or [!], followed by the
    word-count hint; the body names the model exactly when [--model] is a
    non-empty string, and the request is a POST of JSON to [--url]. *)
Theorem chat_request_shape args r1 r2 req :
  mode args = chat →
  build_request args r1 r2 = inr req →
  ∃ base sentence want,
    base ∈ prompts args ∧
    (sentence = base ∨ sentence = base +:+ ".") ∧
    (ends_with_terminal base = true → sentence = base) ∧
    ends_with_terminal sentence = true ∧
    (min_words args ≤ want ≤ Z.max (min_words args) (max_words args))%Z ∧
    req = mkRequest "POST" (url args)
            (Some [("content-type", "application/json")])
            (Some (chat_body args
                     (sentence +:+ " Answer in about " +:+ pretty want +:+
                      " words."))).
Proof.
  intros Hmode. unfold build_request. rewrite Hmode.
  destruct (decide (prompts args = [])) as [Hp|Hp];
    [by rewrite Hp|].
  destruct (draw_choice_nonempty _ r1 Hp) as (base & -> & Hbase).
  destruct (draw_want_defined args r2) as (want & -> & Hwant).
  intros [= <-].
  exists base, (if ends_with_terminal base then base else base +:+ "."), want.
  split; [done|]. destruct (ends_with_terminal base) eqn:Hend.
  - repeat split; auto; lia.
  - repeat split; auto using ends_with_terminal_dot; try lia.
Qed.

Lemma chat_request_shape_witness :
  ∃ req base sentence want,
    build_request args_inverted 0 0 = inr req ∧
    base ∈ prompts args_inverted ∧
    ends_with_terminal sentence = true ∧
    (10 ≤ want ≤ 10)%Z.
Proof.
  eexists.
  destruct (chat_request_shape args_inverted 0 0 _ eq_refl
              ltac:(vm_compute; reflexivity))
    as (base & sentence & want & Hb & _ & _ & Hs & Hw & _).
  exists base, sentence, want.
  split; [vm_compute; reflexivity|]. split; [exact Hb|].
  split; [exact Hs|exact Hw].
Defined.

(** ** The report *)

(** Whatever the operator does, no latency is recorded without its
    success. *)
Lemma latencies_behind args evs s :
  exec args evs init = Some s →
  length (latencies (stats s)) ≤ successes (stats s).
Proof.
  apply (exec_stats_invariant args
           (λ st, length (latencies st) ≤ successes st)); [done..|].
  intros b call t0 t1 st st' Hst Hcut.
  destruct Hcut as [|r _|r _|r _|r msg _ _ _ _|cls msg _|]; simpl;
    rewrite ?length_app; simpl; try lia.
  destruct call as [r|cls msg]; simpl; [|lia].
  destruct (b && _), (json r); simpl; rewrite length_app; simpl; lia.
Qed.

Lemma p95_lat_defined (l : list float) :
  l ≠ [] → (Z.of_nat (length l) ≤ 2 ^ 48)%Z →
  ∃ x, p95_lat l = inr (Some x) ∧
       sorted l !! nearest_rank (length l) = Some x.
Proof.
  intros Hne Hmax.
  assert (Hn : 0 < length l) by (destruct l; [done|simpl; lia]).
  destruct (lookup_lt_is_Some_2 (sorted l) (nearest_rank (length l))) as [x Hx].
  { rewrite length_sorted. by apply nearest_rank_lt. }
  exists x. split; [|done].
  rewrite p95_lat_nonempty by done.
  rewrite length_sorted, p95_index_nearest_rank by done.
  by rewrite (list_index_lookup _ _ x).
Qed.

Lemma success_rate_returns (a b : nat) : ∃ x, success_rate a b = inr x.
Proof.
  unfold success_rate, truediv.
  destruct (0 <? Z.of_nat b)%Z eqn:Hb; [|eauto].
  apply Z.ltb_lt in Hb.
  destruct (Z.of_nat b =? 0)%Z eqn:Hz; [apply Z.eqb_eq in Hz; lia|eauto].
Qed.

(** X14: the success rate and the p95 of the report never raise: once the
    try block is left, normally or on the operator's interrupt, with at
    most [2^48] successes, both are computed, beside the three counters as
    they are; there is a p95 exactly when a latency was recorded, which,
    unless the interrupt fell inside a fold, is when there is at least one
    success; and the p95 is one of the recorded latencies. (The mean of
    the latencies is not part of [report_of].) *)
Theorem report_defined args evs s b :
  exec args evs init = Some s →
  phase s = Done b →
  (Z.of_nat (successes (stats s)) ≤ 2 ^ 48)%Z →
  ∃ rep, report s = Some (inr rep) ∧
         rep_total rep = attempts (stats s) ∧
         rep_successes rep = successes (stats s) ∧
         rep_failures rep = failures (stats s) ∧
         success_rate (successes (stats s)) (attempts (stats s))
           = inr (rep_success_rate rep) ∧
         (rep_p95_lat rep = None ↔ latencies (stats s) = []) ∧
         (successes (stats s) = 0 → rep_p95_lat rep = None) ∧
         (Forall (λ ev, inside_fold ev = false) evs →
          (rep_p95_lat rep = None ↔ successes (stats s) = 0)) ∧
         (∀ x, rep_p95_lat rep = Some x → x ∈ latencies (stats s)).
Proof.
  intros Hex Hph Hmax. unfold report, report_of. rewrite Hph.
  pose proof (latencies_behind _ _ _ Hex) as Hlen.
  assert (Hwhole : Forall (λ ev, inside_fold ev = false) evs →
                   length (latencies (stats s)) = successes (stats s))
    by (by apply (latencies_counted args)).
  destruct (success_rate_returns (successes (stats s)) (attempts (stats s)))
    as [rate ->].
  destruct (latencies (stats s)) as [|l0 ls] eqn:Hl.
  - eexists. split; [reflexivity|]. simpl in *. repeat split; try done.
    intros _. symmetry. by apply Hwhole.
  - destruct (p95_lat_defined (l0 :: ls)) as (x & Hx & Hlook);
      [done|lia|].
    rewrite Hx. eexists. split; [reflexivity|]. simpl in *.
    repeat split; try done; try lia.
    intros y [= <-]. apply list_elem_of_lookup_2 in Hlook.
    by rewrite <- (sorted_Permutation (l0 :: ls)).
Qed.

Lemma report_defined_witness :
  ∃ s rep, exec args_chat (run_two ok200) init = Some s ∧
           report s = Some (inr rep) ∧ rep_total rep = 2.
Proof.
  eexists.
  destruct (report_defined args_chat (run_two ok200) _ false
              ltac:(vm_compute; reflexivity) eq_refl
              ltac:(vm_compute; discriminate))
    as (rep & Hrep & Htot & _).
  exists rep. split; [vm_compute; reflexivity|]. split; [exact Hrep|exact Htot].
Defined.

Lemma filter_all {A} (P : A → Prop) `{∀ x, Decision (P x)} (l : list A) :
  Forall P l → filter P l = l.
Proof.
  induction 1 as [|x l Hx Hl IH]; [done|].
  by rewrite filter_cons_True, IH.
Qed.

Lemma leb_refl (x : float) : PyFloat.is_nan x = false → PyFloat.leb x x = true.
Proof.
  intros Hx. apply not_above_leb; [done..|].
  unfold not_above. destruct (PyFloat.ltb x x) eqn:E; [|done].
  by rewrite (ltb_asym _ _ E) in E.
Qed.

(** X15: what the p95 means: among [n] latencies, none of them NaN and
    [n <= 2^48], the reported value is one of them, more than 95% of
    [n - 1] of the latencies are at most that value, and at least 5% of
    [n] of them are at least that value. *)
Theorem p95_order_statistic (l : list float) :
  l ≠ [] →
  (Z.of_nat (length l) ≤ 2 ^ 48)%Z →
  Forall (λ x, PyFloat.is_nan x = false) l →
  ∃ x, p95_lat l = inr (Some x) ∧ x ∈ l ∧
       95 * (length l - 1) <
         100 * length (filter (λ y, PyFloat.leb y x = true) l) ∧
       5 * length l + 95 ≤
         100 * length (filter (λ y, PyFloat.leb x y = true) l).
Proof.
  intros Hne Hmax Hnan.
  destruct (p95_lat_defined l Hne Hmax) as (x & Hx & Hlook).
  exists x. split; [done|].
  assert (Hin : x ∈ l).
  { rewrite <- (sorted_Permutation l). by eapply list_elem_of_lookup_2. }
  split; [done|].
  rewrite <- !(sorted_Permutation l) at 2 4.
  pose proof (sorted_StronglySorted l Hnan) as Hs.
  pose proof (length_sorted l) as Hlen.
  assert (Hxx : PyFloat.leb x x = true).
  { apply leb_refl. by eapply (proj1 (Forall_forall _ _) Hnan). }
  set (k := nearest_rank (length l)) in *.
  assert (Hk : (100 * Z.of_nat k ≤ 95 * (Z.of_nat (length l) - 1)
                < 100 * (Z.of_nat k + 1))%Z).
  { subst k. unfold nearest_rank.
    assert (0 < length l) by (destruct l; [done|simpl; lia]).
    rewrite Z2Nat.id by (Z.to_euclidean_division_equations; lia).
    Z.to_euclidean_division_equations; lia. }
  rewrite <- (take_drop_middle _ _ _ Hlook) in Hs |- *.
  assert (Hlt : k < length (sorted l)) by (by eapply lookup_lt_Some).
  assert (Htake : length (take k (sorted l)) = k)
    by (rewrite length_take; lia).
  assert (Hdrop : length (drop (S k) (sorted l)) = length l - S k)
    by (rewrite length_drop; lia).
  rewrite !filter_app, !length_app. split.
  - rewrite (filter_all (λ y, PyFloat.leb y x = true) (take k (sorted l))).
    + rewrite filter_cons_True by done. simpl. lia.
    + apply Forall_forall. intros y Hy.
      eapply (StronglySorted_app_1_elem_of _ _ _ _ _ Hs); [done|left].
  - apply StronglySorted_app_1_r, StronglySorted_cons in Hs as [Hs _].
    rewrite filter_cons_True by done.
    rewrite (filter_all (λ y, PyFloat.leb x y = true)
               (drop (S k) (sorted l))) by done.
    simpl. lia.
Qed.

Lemma p95_order_statistic_witness :
  ∃ x, p95_lat five_latencies = inr (Some x) ∧ x ∈ five_latencies.
Proof.
  destruct (p95_order_statistic five_latencies
              ltac:(done) ltac:(vm_compute; discriminate)
              ltac:(repeat constructor))
    as (x & Hx & Hin & _).
  exists x. split; [exact Hx|exact Hin].
Defined.

(** ** The status lines of the report *)

Lemma StronglySorted_item_lt (l : list (pycode * nat)) :
  StronglySorted item_le l → NoDup l.*1 → Forall (λ a, a.1 ≠ None) l →
  StronglySorted item_lt l.
Proof.
  induction 1 as [|a l Hl IH Ha]; intros Hnd Hsome; [constructor|].
  apply NoDup_cons in Hnd as [Hnotin Hnd].
  apply Forall_cons in Hsome as [Ha1 Hsome].
  constructor; [by apply IH|].
  apply Forall_forall. intros b Hb.
  pose proof (proj1 (Forall_forall _ _) Ha b Hb) as Hab.
  pose proof (proj1 (Forall_forall _ _) Hsome b Hb) as Hb1.
  assert (a.1 ≠ b.1).
  { intros Heq. apply Hnotin. rewrite Heq. by apply list_elem_of_fmap_2. }
  unfold item_le in Hab. unfold item_lt.
  destruct a as [[x|] n], b as [[y|] m]; simpl in *; try done.
  exists x, y. repeat split; try done.
  assert (x ≠ y) by congruence. lia.
Qed.

Lemma status_keys_are_codes args evs s :
  exec args evs init = Some s → status_counts (stats s) !! None = None.
Proof. intros Hex. apply (status_buckets _ _ _ Hex). Qed.

(** X16: the report lists every status code received once, with its count, in
    ascending order of the code, and the sort never raises. *)
Theorem status_lines_ascending args evs s :
  exec args evs init = Some s →
  ∃ l, status_lines (status_counts (stats s)) = Some l ∧
       StronglySorted item_lt l ∧
       ∀ c n, (c, n) ∈ l ↔ status_counts (stats s) !! c = Some n.
Proof.
  intros Hex. pose proof (status_keys_are_codes _ _ _ Hex) as Hnone.
  unfold status_lines. rewrite bool_decide_eq_false_2.
  2:{ intros [[n Hn] _]. congruence. }
  eexists. split; [reflexivity|].
  assert (Hin : ∀ c n, (c, n) ∈ merge_sort item_le
                          (map_to_list (status_counts (stats s)))
                       ↔ status_counts (stats s) !! c = Some n).
  { intros c n. rewrite merge_sort_Permutation. apply elem_of_map_to_list. }
  split; [|done].
  apply StronglySorted_item_lt.
  - apply (StronglySorted_merge_sort _).
  - rewrite merge_sort_Permutation. apply NoDup_fst_map_to_list.
  - apply Forall_forall. intros [c n] Hcn%Hin. simpl. congruence.
Qed.

Lemma status_lines_ascending_witness :
  ∃ s l, exec args_get (run_two err500) init = Some s ∧
         status_lines (status_counts (stats s)) = Some l ∧
         (Some 500%Z, 2) ∈ l.
Proof.
  eexists.
  destruct (status_lines_ascending args_get (run_two err500) _
              ltac:(vm_compute; reflexivity)) as (l & Hl & _ & Hin).
  exists l. split; [vm_compute; reflexivity|]. split; [exact Hl|].
  apply Hin. vm_compute. reflexivity.
Defined.

(** ** The prompt corpus *)

Lemma chars_of_list (l : list ascii) : chars (String.string_of_list_ascii l) = l.
Proof. induction l as [|c l IH]; simpl; [done|by rewrite IH]. Qed.

Lemma of_list_nil (l : list ascii) :
  String.string_of_list_ascii l = "" ↔ l = [].
Proof. by destruct l. Qed.

Lemma is_linebreak_space (c : ascii) :
  is_linebreak c = true → is_space c = true.
Proof.
  unfold is_linebreak, is_space. generalize (nat_of_ascii c). intros n.
  rewrite !orb_true_iff, !andb_true_iff, !Nat.leb_le, !Nat.eqb_eq. lia.
Qed.

Lemma filter_nonspace_cons_space (c : ascii) (l : list ascii) :
  is_space c = true →
  filter (λ c, is_space c = false) (c :: l)
  = filter (λ c, is_space c = false) l.
Proof. intros Hc. rewrite filter_cons_False; [done|]. by rewrite Hc. Qed.

Lemma lstrip_chars_nonspace (s : list ascii) :
  filter (λ c, is_space c = false) (lstrip_chars s)
  = filter (λ c, is_space c = false) s.
Proof.
  induction s as [|c s IH]; simpl; [done|].
  destruct (is_space c) eqn:Hc; [|done].
  by rewrite filter_nonspace_cons_space.
Qed.

Lemma lstrip_chars_head (s : list ascii) (c : ascii) :
  head (lstrip_chars s) = Some c → is_space c = false.
Proof.
  induction s as [|c' s IH]; simpl; [done|].
  destruct (is_space c') eqn:Hc; [done|]. by intros [= <-].
Qed.

Lemma lstrip_chars_suffix (s : list ascii) :
  ∃ pre, s = pre ++ lstrip_chars s.
Proof.
  induction s as [|c s [pre IH]]; simpl; [by exists []|].
  destruct (is_space c); [|by exists []].
  exists (c :: pre). simpl. by rewrite <- IH.
Qed.

Lemma strip_chars_nonspace (s : list ascii) :
  filter (λ c, is_space c = false) (strip_chars s)
  = filter (λ c, is_space c = false) s.
Proof.
  unfold strip_chars.
  rewrite filter_reverse, lstrip_chars_nonspace, filter_reverse.
  by rewrite reverse_involutive, lstrip_chars_nonspace.
Qed.

Lemma strip_chars_sublist (P : ascii → Prop) (s : list ascii) :
  Forall P s → Forall P (strip_chars s).
Proof.
  intros Hs. unfold strip_chars.
  destruct (lstrip_chars_suffix s) as [pre1 H1].
  destruct (lstrip_chars_suffix (reverse (lstrip_chars s))) as [pre2 H2].
  rewrite H1 in Hs. apply Forall_app in Hs as [_ Hs].
  apply Forall_reverse. apply Forall_reverse in Hs. rewrite H2 in Hs.
  by apply Forall_app in Hs as [_ Hs].
Qed.

Lemma strip_chars_ends (s : list ascii) :
  strip_chars s ≠ [] →
  (∃ c, head (strip_chars s) = Some c ∧ is_space c = false) ∧
  (∃ c, last (strip_chars s) = Some c ∧ is_space c = false).
Proof.
  unfold strip_chars. intros Hne.
  set (t := lstrip_chars s) in *.
  destruct (lstrip_chars_suffix (reverse t)) as [pre Hpre].
  set (u := lstrip_chars (reverse t)) in *.
  assert (Ht : t = reverse u ++ reverse pre).
  { rewrite <- (reverse_involutive t), Hpre. by rewrite reverse_app. }
  split.
  - destruct (reverse u) as [|c ru] eqn:Hru; [done|].
    exists c. split; [done|].
    apply (lstrip_chars_head s). fold t. by rewrite Ht.
  - destruct u as [|c u'] eqn:Hu; [done|].
    exists c. split.
    + rewrite reverse_cons. by rewrite last_snoc.
    + apply (lstrip_chars_head (reverse t)). fold u. by rewrite Hu.
Qed.

Lemma strip_chars_nil (s : list ascii) :
  strip_chars s = [] ↔ filter (λ c, is_space c = false) s = [].
Proof.
  rewrite <- strip_chars_nonspace. split; [by intros ->|].
  intros Hf. destruct (decide (strip_chars s = [])) as [|Hne]; [done|].
  destruct (strip_chars_ends s Hne) as [(c & Hc & Hsp) _].
  destruct (strip_chars s) as [|c' l]; [done|].
  simpl in Hc. injection Hc as ->.
  by rewrite filter_cons_True in Hf.
Qed.

Lemma split_lines_no_break (b : bool) (cur s : list ascii) :
  Forall (λ c, is_linebreak c = false) cur →
  Forall (Forall (λ c, is_linebreak c = false)) (split_lines b cur s).
Proof.
  revert b cur. induction s as [|c s IH]; intros b cur Hcur; simpl.
  - destruct cur; [constructor|]. constructor; [done|constructor].
  - destruct (b && Ascii.eqb c "010"); [by apply IH|].
    destruct (is_linebreak c) eqn:Hc.
    + constructor; [done|]. by apply IH.
    + apply IH. apply Forall_app. split; [done|]. by constructor.
Qed.

Lemma split_lines_nonspace (b : bool) (cur s : list ascii) :
  concat (map (filter (λ c, is_space c = false)) (split_lines b cur s))
  = filter (λ c, is_space c = false) (cur ++ s).
Proof.
  revert b cur. induction s as [|c s IH]; intros b cur; simpl.
  - rewrite app_nil_r. destruct cur; [done|]. simpl. by rewrite app_nil_r.
  - destruct (b && Ascii.eqb c "010") eqn:Hlf.
    + apply andb_true_iff in Hlf as [_ ->%Ascii.eqb_eq].
      rewrite IH, !filter_app. f_equal.
    + destruct (is_linebreak c) eqn:Hc.
      * cbn [map concat]. rewrite IH. change ([] ++ s) with s.
        rewrite filter_app. f_equal.
        by rewrite filter_nonspace_cons_space
          by (by apply is_linebreak_space).
      * rewrite IH. by rewrite <- app_assoc.
Qed.

Lemma strip_of_list (l : list ascii) :
  strip (String.string_of_list_ascii l)
  = String.string_of_list_ascii (strip_chars l).
Proof. unfold strip. by rewrite chars_of_list. Qed.

Lemma text_lines_stripped (lines : list (list ascii)) :
  Forall (Forall (λ c, is_linebreak c = false)) lines →
  let ps := map strip (filter (λ line, strip line ≠ "")
                         (map String.string_of_list_ascii lines)) in
  Forall stripped_line ps ∧
  concat (map nonblank ps)
  = concat (map (filter (λ c, is_space c = false)) lines).
Proof.
  induction 1 as [|l lines Hl Hlines [IH1 IH2]]; simpl; [done|].
  rewrite filter_cons. rewrite strip_of_list.
  destruct (decide (String.string_of_list_ascii (strip_chars l) ≠ ""))
    as [Hne|He].
  - rewrite of_list_nil in Hne. simpl. rewrite strip_of_list. split.
    + constructor; [|done]. unfold stripped_line. rewrite chars_of_list.
      destruct (strip_chars_ends l Hne) as [Hh Ht].
      repeat split; try done. by apply strip_chars_sublist.
    + unfold nonblank at 1. rewrite chars_of_list, strip_chars_nonspace.
      by rewrite IH2.
  - apply dec_stable in He. rewrite of_list_nil, strip_chars_nil in He.
    split; [done|]. by rewrite He.
Qed.

(** X17: a text file of prompts: every prompt loaded is a non-empty line with
    no white space at either end and no line boundary inside; the
    characters of the file other than white space are those of the prompts,
    in the same order; and the corpus is empty exactly when the file holds
    nothing but white space. *)
Theorem load_prompts_text (w : Files) (path text : string) :
  path ≠ "" →
  path_exists w path = true →
  suffix_lower w path ∉ [".json"; ".jsonl"] →
  read_text w path = inr text →
  ∃ ps, load_prompts w (Some path) = inr ps ∧
        Forall stripped_line ps ∧
        concat (map nonblank ps) = nonblank text ∧
        (ps = [] ↔ Forall (λ c, is_space c = true) (chars text)).
Proof.
  intros Hpath Hex Hsuf Htext. unfold load_prompts.
  destruct path as [|c0 path]; [done|].
  rewrite Hex, bool_decide_eq_false_2, Htext by done. simpl.
  eexists. split; [reflexivity|]. unfold splitlines.
  destruct (text_lines_stripped (split_lines false [] (chars text)))
    as [H1 H2]; [by apply split_lines_no_break|].
  rewrite split_lines_nonspace in H2. simpl in H2.
  split; [done|]. split; [exact H2|].
  set (ps := map strip _) in *. clearbody ps.
  split.
  - intros ->. simpl in H2. symmetry in H2.
    apply Forall_forall. intros c Hc.
    destruct (is_space c) eqn:Hsp; [done|].
    assert (c ∈ filter (λ c, is_space c = false) (chars text))
      by (by apply list_elem_of_filter).
    rewrite H2 in *. by apply elem_of_nil in H.
  - intros Hall. destruct ps as [|p ps]; [done|].
    apply Forall_cons in H1 as [[(c & Hc & Hsp) _] _].
    assert (Hin : c ∈ filter (λ c, is_space c = false) (chars text)).
    { rewrite <- H2. simpl. apply elem_of_app. left. unfold nonblank.
      apply list_elem_of_filter. split; [done|].
      destruct (chars p); [done|]. simpl in Hc. injection Hc as ->. left. }
    apply list_elem_of_filter in Hin as [_ Hin].
    pose proof (proj1 (Forall_forall _ _) Hall c Hin). congruence.
Qed.

Lemma load_prompts_text_witness :
  ∃ ps, load_prompts sample_files (Some "prompts.txt") = inr ps ∧
        Forall stripped_line ps ∧
        ps = ["What is a span?"; "Define a trace"].
Proof.
  destruct (load_prompts_text sample_files "prompts.txt" _
              ltac:(done) eq_refl
              ltac:(apply (bool_decide_unpack _); vm_compute; exact I) eq_refl)
    as (ps & Hps & Hst & _).
  exists ps. split; [exact Hps|]. split; [exact Hst|].
  vm_compute in Hps. by injection Hps as <-.
Defined.

(** X18: a JSON file of prompts whose document is a list of strings: the
    non-empty strings are the corpus, as they are and in their order;
    nothing is stripped, so that a string of white space is a prompt. *)
Theorem load_prompts_json_strings (w : Files) (path text : string)
    (ss : list string) :
  path ≠ "" →
  path_exists w path = true →
  suffix_lower w path ∈ [".json"; ".jsonl"] →
  read_text w path = inr text →
  json_loads w text = inr (JList (map JStr ss)) →
  load_prompts w (Some path) = inr (filter (λ s, s ≠ "") ss).
Proof.
  intros Hpath Hex Hsuf Htext Hjson. unfold load_prompts.
  destruct path as [|c0 path]; [done|].
  rewrite Hex, bool_decide_eq_true_2, Htext, Hjson by done. simpl.
  f_equal. clear. induction ss as [|s ss IH]; [done|].
  simpl. rewrite !filter_cons. simpl.
  destruct (String.eqb_spec s "") as [->|Hs]; simpl.
  - exact IH.
  - rewrite decide_True by done. by rewrite IH.
Qed.

Lemma load_prompts_json_strings_witness :
  load_prompts sample_files (Some "prompts.json")
  = inr ["What is a span?"; " "].
Proof.
  apply (load_prompts_json_strings sample_files "prompts.json" "[ignored]"
           ["What is a span?"; ""; " "]);
    [done|reflexivity| |reflexivity|reflexivity].
  apply (bool_decide_unpack _). vm_compute. exact I.
Defined.

(** X19: a prompts file that is not given, or given and not there, is no
    error: [main] gets its list of prompts without an exception, the ten
    default prompts in chat mode, and a run with that list never crashes
    in [submit_one]. *)
Theorem missing_prompts_file_runs (w : Files) (file : option string)
    args evs s :
  (∀ p, file = Some p → p = "" ∨ path_exists w p = false) →
  ∃ ps, main_prompts w (mode args) file = inr ps ∧
        (mode args = chat → ps = DEFAULT_PROMPTS) ∧
        (prompts args = ps → exec args evs init = Some s → ¬ crashed s).
Proof.
  intros Hfile.
  assert (Hload : load_prompts w file = inr DEFAULT_PROMPTS).
  { unfold load_prompts. destruct file as [[|c p]|]; [done| |done].
    destruct (Hfile _ eq_refl) as [Hp|Hp]; [done|]. by rewrite Hp. }
  assert (Hps : ∃ ps, main_prompts w (mode args) file = inr ps ∧
                      (mode args = chat → ps = DEFAULT_PROMPTS)).
  { unfold main_prompts. destruct (mode args); [by exists []|].
    rewrite Hload. by exists DEFAULT_PROMPTS. }
  destruct Hps as (ps & Hps & Hdef). exists ps. split; [done|].
  split; [done|]. intros Hargs.
  assert (Hok : mode args = get ∨ prompts args ≠ []).
  { destruct (mode args) eqn:Hm; [by left|right].
    rewrite Hargs, Hdef by done. done. }
  by apply exec_not_crashed.
Qed.

Lemma missing_prompts_file_runs_witness :
  ∃ ps, main_prompts sample_files chat (Some "nowhere.txt") = inr ps ∧
        ps = DEFAULT_PROMPTS.
Proof.
  destruct (missing_prompts_file_runs sample_files (Some "nowhere.txt")
              args_chat [] init) as (ps & Hps & Hdef & _).
  - intros p [= <-]. right. reflexivity.
  - exists ps. split; [exact Hps|]. by apply Hdef.
Defined.

